(** * Shopify contact scraper: a shallow embedding of
    [shopify_contact_scraper.py] and the properties of its extractors,
    its paginated search and its per-site crawl.

  Conventions of the embedding.
  - A Python [str] is a [string]; a character is an [ascii].  Pages are
    therefore taken to be ASCII text.
  - A Python [set] of strings is a [gset string]; the [social_links]
    dictionary is a [gmap string string]; the result dictionary of
    [scrape_site], whose eleven keys are fixed, is the record
    [contact_record].
  - A parsed document (a [BeautifulSoup] object) is a [node] tree.
  - The compiled patterns of [__init__] are values of [regex], run by a
    backtracking matcher with the leftmost, ordered-alternative, greedy
    discipline of Python's [re].
  - The browser ([self.driver]) is an explicit environment: what a
    [get] of a URL produces, and where an exception is raised.
  - [urllib.parse.urljoin] is a parameter of the crawl; it returns
    [None] where the library raises.
  - A function that can raise returns an [option]; a loop whose number
    of rounds is not evident takes fuel and returns [None] when it
    runs out, and is shown never to.
  - Logging has no counterpart.  Of [time.sleep] the pauses are left
    out; what is kept is whether the call returns or raises, where its
    argument comes from outside ([delay]).
  - A page is taken to hold no comment and no [script], [style],
    [template], [rt] or [rp] element: BeautifulSoup keeps the strings
    of these apart and [get_text] passes over them, which the [node]
    tree does not show.
  - [close_popups] runs over an abstract browser tab and logs the
    lookups and clicks it makes; [main] starts from the parsed
    arguments and lists the files it writes.  The launch and the end of
    the browser ([_init_driver], [__del__]) have no counterpart: the
    scraper is given [self.driver] as the constructor leaves it. *)

From Stdlib Require Import Ascii.
From Stdlib Require QArith_base.
From stdpp Require Import gmap strings list sorting.

Local Open Scope nat_scope.

(** ** Python string primitives *)

Module Py.

(** [c.isspace()] for a code point below 128. *)
Definition isspace (c : ascii) : bool :=
  let n := nat_of_ascii c in
  ((9 <=? n) && (n <=? 13)) || ((28 <=? n) && (n <=? 32)).

Definition isdigit (c : ascii) : bool :=
  let n := nat_of_ascii c in (48 <=? n) && (n <=? 57).

Definition isupper (c : ascii) : bool :=
  let n := nat_of_ascii c in (65 <=? n) && (n <=? 90).

Definition islower (c : ascii) : bool :=
  let n := nat_of_ascii c in (97 <=? n) && (n <=? 122).

(** A word character of [\w] (and of [\b]). *)
Definition isword (c : ascii) : bool :=
  isdigit c || isupper c || islower c || Ascii.eqb c "_".

Definition lower_char (c : ascii) : ascii :=
  if isupper c then ascii_of_nat (nat_of_ascii c + 32) else c.

(** [s.lower()] *)
Fixpoint lower (s : string) : string :=
  match s with
  | "" => ""
  | String c s' => String (lower_char c) (lower s')
  end.

Fixpoint lstrip (s : string) : string :=
  match s with
  | "" => ""
  | String c s' => if isspace c then lstrip s' else s
  end.

(** [s.rstrip()]: a suffix made of white space only is dropped. *)
Fixpoint rstrip (s : string) : string :=
  match s with
  | "" => ""
  | String c s' =>
      match rstrip s' with
      | "" => if isspace c then "" else String c ""
      | r => String c r
      end
  end.

(** [s.strip()] *)
Definition strip (s : string) : string := rstrip (lstrip s).

(** [s.startswith(p)] *)
Definition startswith (s p : string) : bool := String.prefix p s.

(** [p in s] on strings: [p] occurs in [s] as a substring. *)
Fixpoint contains (p s : string) : bool :=
  String.prefix p s ||
  match s with
  | "" => false
  | String _ s' => contains p s'
  end.

(** [s.replace(old, new)] for a non-empty [old]: the occurrences are
    taken from the left and do not overlap.  [skip] counts the
    characters of an occurrence still to be dropped. *)
Fixpoint replace_go (old new : string) (skip : nat) (s : string) : string :=
  match s with
  | "" => ""
  | String c s' =>
      match skip with
      | S k => replace_go old new k s'
      | O =>
          if String.prefix old s
          then new +:+ replace_go old new (String.length old - 1) s'
          else String c (replace_go old new 0 s')
      end
  end.

Definition replace (s old new : string) : string := replace_go old new 0 s.

(** [s.split(sep)] for a separator of one character. *)
Fixpoint split (sep : ascii) (s : string) : list string :=
  match s with
  | "" => [""]
  | String c s' =>
      if Ascii.eqb c sep then "" :: split sep s'
      else match split sep s' with
           | [] => [String c ""]
           | w :: ws => String c w :: ws
           end
  end.

(** [s.count(c)] for a one-character argument. *)
Fixpoint count (c : ascii) (s : string) : nat :=
  match s with
  | "" => 0
  | String d s' => (if Ascii.eqb d c then 1 else 0) + count c s'
  end.

(** [sep.join(l)] *)
Definition join (sep : string) (l : list string) : string :=
  String.concat sep l.

(** [s[:n]] *)
Definition take (n : nat) (s : string) : string := String.substring 0 n s.

(** [any(x in s for x in l)] *)
Definition any_in (l : list string) (s : string) : bool :=
  existsb (fun x => contains x s) l.

(** The characters of [s] that satisfy [keep], in order: what
    [re.sub] with a one-character negated class and an empty
    replacement leaves. *)
Fixpoint keep_chars (keep : ascii -> bool) (s : string) : string :=
  match s with
  | "" => ""
  | String c s' =>
      if keep c then String c (keep_chars keep s') else keep_chars keep s'
  end.

(** [sorted(S)] on a set of strings. *)
Definition sorted (S : gset string) : list string :=
  merge_sort String.le (elements S).

End Py.

(** ** Regular expressions, as Python's [re] runs them *)

Module Re.

(** One member of a bracketed class. *)
Inductive citem : Type :=
| Ch (c : ascii)              (* a literal character *)
| Rg (lo hi : ascii)          (* [lo-hi] *)
| Dig                         (* \d *)
| Spc.                        (* \s *)

Inductive regex : Type :=
| Eps                                         (* the empty pattern *)
| Cls (neg : bool) (items : list citem)       (* [...] and [^...] *)
| Dot                                         (* . *)
| Lit (s : string)                            (* a literal run *)
| Cat (r1 r2 : regex)
| Alt (r1 r2 : regex)                         (* r1|r2, r1 tried first *)
| Rep (lo : nat) (hi : option nat) (r : regex)  (* greedy {lo,hi} *)
| Grp (i : nat) (r : regex)                   (* capturing group number i *)
| WordB.                                      (* \b *)

Definition cat_list (rs : list regex) : regex := foldr Cat Eps rs.
Definition alt_list (rs : list regex) : regex :=
  match rs with
  | [] => Eps
  | r :: rs' => foldl Alt r rs'
  end.
Definition opt (r : regex) : regex := Rep 0 (Some 1) r.
Definition star (r : regex) : regex := Rep 0 None r.
Definition plus (r : regex) : regex := Rep 1 None r.
Definition chr (c : ascii) : regex := Cls false [Ch c].
Definition digit : regex := Cls false [Dig].
Definition space : regex := Cls false [Spc].

Definition char_eqb (ic : bool) (c d : ascii) : bool :=
  if ic then Ascii.eqb (Py.lower_char c) (Py.lower_char d) else Ascii.eqb c d.

Definition in_range (lo hi c : ascii) : bool :=
  (nat_of_ascii lo <=? nat_of_ascii c) && (nat_of_ascii c <=? nat_of_ascii hi).

Definition upper_char (c : ascii) : ascii :=
  if Py.islower c then ascii_of_nat (nat_of_ascii c - 32) else c.

(** [ic] is [re.IGNORECASE]. *)
Definition item_match (ic : bool) (c : ascii) (it : citem) : bool :=
  match it with
  | Ch d => char_eqb ic c d
  | Rg lo hi =>
      if ic then in_range lo hi (Py.lower_char c) || in_range lo hi (upper_char c)
      else in_range lo hi c
  | Dig => Py.isdigit c
  | Spc => Py.isspace c
  end.

Definition cls_match (ic neg : bool) (items : list citem) (c : ascii) : bool :=
  xorb neg (existsb (item_match ic c) items).

(** The matcher's state: the character before the cursor, the text
    after it, the number of characters consumed since the match
    started, and the groups captured so far. *)
Record mstate : Type := MState {
  prev : option ascii;
  rest : string;
  pos : nat;
  caps : gmap nat string
}.

Definition advance (st : mstate) (c : ascii) (s' : string) : mstate :=
  {| prev := Some c; rest := s'; pos := S (pos st); caps := caps st |}.

Fixpoint lit_run (ic : bool) (l : string) (st : mstate) : option mstate :=
  match l with
  | "" => Some st
  | String d l' =>
      match rest st with
      | "" => None
      | String c s' =>
          if char_eqb ic c d then lit_run ic l' (advance st c s') else None
      end
  end.

Definition is_word_opt (o : option ascii) : bool :=
  match o with Some c => Py.isword c | None => false end.

Definition next_char (st : mstate) : option ascii :=
  match rest st with "" => None | String c _ => Some c end.

Definition or_else {R} (a b : option R) : option R :=
  match a with Some x => Some x | None => b end.

(** Backtracking by continuation: [run ic r st k] matches [r] at
    [st] and hands every way of doing so to [k], in Python's order of
    preference, until [k] accepts one.  A repetition without upper
    bound is given as many rounds as characters are left; in the
    patterns of the scraper its body always consumes a character. *)
Fixpoint run {R} (ic : bool) (r : regex) (st : mstate)
    (k : mstate -> option R) {struct r} : option R :=
  match r with
  | Eps => k st
  | Cls neg items =>
      match rest st with
      | "" => None
      | String c s' =>
          if cls_match ic neg items c then k (advance st c s') else None
      end
  | Dot =>
      match rest st with
      | "" => None
      | String c s' =>
          if Ascii.eqb c "010" then None else k (advance st c s')
      end
  | Lit l =>
      match lit_run ic l st with
      | Some st' => k st'
      | None => None
      end
  | Cat r1 r2 => run ic r1 st (fun st' => run ic r2 st' k)
  | Alt r1 r2 => or_else (run ic r1 st k) (run ic r2 st k)
  | Rep lo hi r' =>
      (fix loop (n cnt : nat) (st : mstate) {struct n} : option R :=
         let stop := if lo <=? cnt then k st else None in
         match n with
         | O => stop
         | S n' =>
             or_else (run ic r' st (fun st' => loop n' (S cnt) st')) stop
         end)
        (match hi with Some h => h | None => String.length (rest st) end)
        0 st
  | Grp i r' =>
      run ic r' st
        (fun st' =>
           k {| prev := prev st'; rest := rest st'; pos := pos st';
                caps := <[i := Py.take (pos st' - pos st) (rest st)]> (caps st') |})
  | WordB =>
      if xorb (is_word_opt (prev st)) (is_word_opt (next_char st))
      then k st else None
  end.

(** A match attempt at one position: the length of the match and its
    groups. *)
Definition match_at (ic : bool) (r : regex) (p : option ascii) (s : string)
    : option (nat * gmap nat string) :=
  run ic r {| prev := p; rest := s; pos := 0; caps := ∅ |}
      (fun st => Some (pos st, caps st)).

(** The non-overlapping matches of [r] in [s], from the left:
    for each, the matched text and the groups.  [skip] counts the
    characters of the last match still to be passed. *)
Fixpoint scan (ic : bool) (r : regex) (p : option ascii) (s : string)
    (skip : nat) : list (string * gmap nat string) :=
  match skip with
  | S j =>
      match s with
      | "" => []
      | String c s' => scan ic r (Some c) s' j
      end
  | O =>
      match match_at ic r p s with
      | Some (len, g) =>
          (Py.take len s, g) ::
          match s with
          | "" => []
          | String c s' => scan ic r (Some c) s' (len - 1)
          end
      | None =>
          match s with
          | "" => []
          | String c s' => scan ic r (Some c) s' 0
          end
      end
  end.

(** [r.findall(s)] for a pattern without groups. *)
Definition findall (ic : bool) (r : regex) (s : string) : list string :=
  (scan ic r None s 0).*1.

Definition group (g : gmap nat string) (i : nat) : string := default "" (g !! i).

(** [r.findall(s)] for a pattern with [n >= 2] groups: one tuple of
    group texts per match, a group that took no part being [""]. *)
Definition findall_groups (ic : bool) (n : nat) (r : regex) (s : string)
    : list (list string) :=
  (fun m => group m.2 <$> seq 1 n) <$> scan ic r None s 0.

(** [r.search(s)] as a truth value. *)
Fixpoint search (ic : bool) (r : regex) (p : option ascii) (s : string) : bool :=
  match match_at ic r p s with
  | Some _ => true
  | None =>
      match s with
      | "" => false
      | String c s' => search ic r (Some c) s'
      end
  end.

(** [re.sub(r, '', s)] where [r] is a single class: the characters
    of the class are dropped. *)
Definition sub_cls (neg : bool) (items : list citem) (s : string) : string :=
  Py.keep_chars (fun c => negb (cls_match false neg items c)) s.

End Re.

(** ** The compiled patterns of [ShopifyContactScraper.__init__] *)

Module Patterns.
Import Re.

Definition alnum : list citem := [Rg "A" "Z"; Rg "a" "z"; Rg "0" "9"].

(** [\b[A-Za-z0-9._%+-]+@[A-Za-z0-9.-]+\.[A-Z|a-z]{2,}\b] *)
Definition email_pattern : regex :=
  cat_list
    [ WordB;
      plus (Cls false (alnum ++ [Ch "."; Ch "_"; Ch "%"; Ch "+"; Ch "-"]));
      chr "@";
      plus (Cls false (alnum ++ [Ch "."; Ch "-"]));
      chr ".";
      Rep 2 None (Cls false [Rg "A" "Z"; Ch "|"; Rg "a" "z"]);
      WordB ].

Definition d29 : regex := Cls false [Rg "2" "9"].
Definition d02_9 : regex := Cls false [Ch "0"; Rg "2" "9"].
Definition d02_8 : regex := Cls false [Ch "0"; Rg "2" "8"].
Definition d09 : regex := Cls false [Rg "0" "9"].
Definition dot_dash : regex := Cls false [Ch "."; Ch "-"].
Definition sep : regex := Cls false [Spc; Ch "."; Ch "-"].

(** An optional dot or dash followed by white space, written
    [(?:[.-]\s* )?] in the source (without the blank). *)
Definition opt_punct : regex := opt (Cat dot_dash (star space)).

(** The optional country prefix: [\+?1], white space, [opt_punct]. *)
Definition nanp_country : regex :=
  opt (cat_list [opt (chr "+"); chr "1"; star space; opt_punct]).

(** [([2-9]1[02-9]|[2-9][02-8]1|[2-9][02-8][02-9])] *)
Definition nanp_area : regex :=
  Grp 1 (alt_list
           [ cat_list [d29; chr "1"; d02_9];
             cat_list [d29; d02_8; chr "1"];
             cat_list [d29; d02_8; d02_9] ]).

(** The optional area-code part: an optional opening parenthesis,
    white space, group 1, white space, an optional closing
    parenthesis, white space, [opt_punct]. *)
Definition nanp_area_part : regex :=
  opt (cat_list
         [ opt (chr "("); star space; nanp_area; star space;
           opt (chr ")"); star space; opt_punct ]).

(** [([2-9]1[02-9]|[2-9][02-9]1|[2-9][02-9]{2})] *)
Definition nanp_exchange : regex :=
  Grp 2 (alt_list
           [ cat_list [d29; chr "1"; d02_9];
             cat_list [d29; d02_9; chr "1"];
             cat_list [d29; Rep 2 (Some 2) d02_9] ]).

(** [([0-9]{4})] *)
Definition nanp_subscriber : regex := Grp 3 (Rep 4 (Some 4) d09).

(** The optional extension: white space, one of [#], [x\.?],
    [ext\.?], [extension], white space, group 4 [\d+]. *)
Definition nanp_extension : regex :=
  opt (cat_list
         [ star space;
           alt_list
             [ chr "#";
               Cat (chr "x") (opt (chr "."));
               Cat (Lit "ext") (opt (chr "."));
               Lit "extension" ];
           star space;
           Grp 4 (plus digit) ]).

(** The first alternative: the North-American grammar, four groups. *)
Definition nanp : regex :=
  cat_list
    [ nanp_country; nanp_area_part; nanp_exchange;
      star space; opt_punct; nanp_subscriber; nanp_extension ].

(** The second alternative:
    [(?:\+\d{1,3}[\s.-]?)?\(?\d{2,4}\)?[\s.-]?\d{2,4}[\s.-]?\d{2,4}[\s.-]?\d{0,4}] *)
Definition international : regex :=
  cat_list
    [ opt (cat_list [chr "+"; Rep 1 (Some 3) digit; opt sep]);
      opt (chr "("); Rep 2 (Some 4) digit; opt (chr ")");
      opt sep; Rep 2 (Some 4) digit;
      opt sep; Rep 2 (Some 4) digit;
      opt sep; Rep 0 (Some 4) digit ].

Definition phone_pattern : regex := Alt nanp international.

(** [re.compile(r'phone|call|contact|tel', re.IGNORECASE)] *)
Definition contact_keyword : regex :=
  alt_list [Lit "phone"; Lit "call"; Lit "contact"; Lit "tel"].

(** [re.compile(".*PostalAddress")] *)
Definition postal_address : regex := Cat (star Dot) (Lit "PostalAddress").

(** The class of [re.sub(r'[^0-9+()\s.-]', '', phone)]. *)
Definition phone_chars : list citem :=
  [Rg "0" "9"; Ch "+"; Ch "("; Ch ")"; Spc; Ch "."; Ch "-"].

End Patterns.

(** ** Parsed documents *)

Module Dom.

(** A node of the tree [BeautifulSoup(page_source, 'html.parser')]
    builds: a text node ([NavigableString]) or a tag with its
    attribute dictionary and its contents.  The document itself is
    the tag named ["[document]"]. *)
#[warnings="-register-all"]
Inductive node : Type :=
| Text (s : string)
| Elem (name : string) (attrs : gmap string string) (contents : list node).

Definition soup (contents : list node) : node := Elem "[document]" ∅ contents.

Definition is_tag (n : node) : bool :=
  match n with Elem _ _ _ => true | Text _ => false end.

Definition name (n : node) : string :=
  match n with Elem t _ _ => t | Text _ => "" end.

(** [tag.get(a)] *)
Definition attr (n : node) (a : string) : option string :=
  match n with Elem _ m _ => m !! a | Text _ => None end.

(** [tag[a]], read only where the attribute is known to be there. *)
Definition attr_value (n : node) (a : string) : string := default "" (attr n a).

Definition has_attr (n : node) (a : string) : bool := bool_decide (is_Some (attr n a)).

(** [tag.descendants]: every node below [n], in document order. *)
Fixpoint descendants (n : node) : list node :=
  match n with
  | Text _ => []
  | Elem _ _ cs => flat_map (fun c => c :: descendants c) cs
  end.

(** [tag.find_all(...)]: the tags below [n] that satisfy [p], in
    document order. *)
Definition find_all (p : node -> bool) (n : node) : list node :=
  List.filter (fun d => is_tag d && p d) (descendants n).

(** [tag.find(...)] *)
Definition find (p : node -> bool) (n : node) : option node :=
  head (find_all p n).

Definition named (t : string) (n : node) : bool := String.eqb (name n) t.
Definition named_in (ts : list string) (n : node) : bool :=
  existsb (String.eqb (name n)) ts.

(** [find_all('a', href=True)] *)
Definition links (n : node) : list node :=
  find_all (fun d => named "a" d && has_attr d "href") n.

(** The text nodes at and below [n], in document order. *)
Fixpoint strings (n : node) : list string :=
  match n with
  | Text s => [s]
  | Elem _ _ cs => flat_map strings cs
  end.

(** [tag.get_text(separator=sep, strip=True)]: every text node is
    stripped, the empty ones are left out, the others are joined. *)
Definition get_text (sep : string) (n : node) : string :=
  Py.join sep
    (List.filter (fun s => negb (String.eqb s "")) (Py.strip <$> strings n)).

(** [tag.string]: the text of a tag whose contents come down to a
    single text node. *)
Fixpoint string_of (n : node) : option string :=
  match n with
  | Text s => Some s
  | Elem _ _ [c] => string_of c
  | Elem _ _ _ => None
  end.

(** The tokens of a [class] attribute. *)
Fixpoint words_go (cur : string) (s : string) : list string :=
  match s with
  | "" => if String.eqb cur "" then [] else [String.rev cur]
  | String c s' =>
      if Py.isspace c
      then (if String.eqb cur "" then [] else [String.rev cur]) ++ words_go "" s'
      else words_go (String c cur) s'
  end.

Definition classes (n : node) : list string :=
  words_go "" (attr_value n "class").

Definition has_class (c : string) (n : node) : bool :=
  existsb (String.eqb c) (classes n).

End Dom.

(** ** The field extractors *)

Section Extractors.
Import Dom.

(** A [for] loop whose body adds strings to a set: [body x] lists
    what the iteration on [x] adds. *)
Definition for_add {A} (body : A -> list string) (items : list A)
    (S : gset string) : gset string :=
  foldl (fun acc x => acc ∪ list_to_set (body x)) S items.

(** *** [extract_emails] *)

Definition email_denylist : list string :=
  [ "example.com"; "domain.com"; "email.com"; "test.com";
    "yoursite.com"; "website.com"; "yourdomain.com";
    "siteaddress.com"; "sample.com"; ".png"; ".jpg"; ".gif" ].

(** The body of the loop over the hyperlinks (lines 314-318). *)
Definition mailto_body (link : node) : list string :=
  let href := attr_value link "href" in
  if Py.startswith href "mailto:" then
    let email := Py.strip (hd "" (Py.split "?" (Py.replace href "mailto:" ""))) in
    if Py.contains "@" email && Py.contains "." email
    then [Py.lower email] else []
  else [].

(** The body of the loop over the matches in the text (lines 322-332). *)
Definition text_email_body (found : string) : list string :=
  let email := Py.strip (Py.lower found) in
  if negb (String.eqb email "") && negb (Py.any_in email_denylist email) then
    if (Py.count "@" email =? 1) && Py.contains "." (nth 1 (Py.split "@" email) "")
    then [email] else []
  else [].

(** The body of the loop over the [meta] tags (lines 335-342). *)
Definition meta_body (meta : node) : list string :=
  let content := default "" (attr meta "content") in
  if Py.contains "@" content then
    flat_map
      (fun found =>
         let email := Py.strip (Py.lower found) in
         if Py.count "@" email =? 1 then [email] else [])
      (Re.findall false Patterns.email_pattern content)
  else [].

Definition extract_emails (soup : node) (text : string) : gset string :=
  let emails := ∅ in
  let emails := for_add mailto_body (links soup) emails in
  let emails :=
    for_add text_email_body (Re.findall false Patterns.email_pattern text) emails in
  let emails := for_add meta_body (find_all (named "meta") soup) emails in
  emails.

(** *** [extract_phone_numbers] *)

(** [len(re.sub(r'\D', '', phone))] *)
Definition digit_count (phone : string) : nat :=
  String.length (Re.sub_cls true [Re.Dig] phone).

(** The body of the loop over the hyperlinks (lines 360-366). *)
Definition tel_body (link : node) : list string :=
  let href := attr_value link "href" in
  if Py.startswith href "tel:" then
    let phone := Py.strip (Py.replace href "tel:" "") in
    let phone := Re.sub_cls true Patterns.phone_chars phone in
    if negb (String.eqb phone "") then [phone] else []
  else [].

(** [phone_pattern] has four groups, so [findall] yields tuples and
    [phone] is always the concatenation [''.join(match)]. *)
Definition phone_of_match (m : list string) : string :=
  Py.strip (Py.join "" m).

Definition phone_matches (s : string) : list (list string) :=
  Re.findall_groups false 4 Patterns.phone_pattern s.

(** [soup.find_all(['p','div','span','li','td'], string=re.compile(...))] *)
Definition contact_elements (soup : node) : list node :=
  find_all
    (fun d =>
       named_in ["p"; "div"; "span"; "li"; "td"] d &&
       match string_of d with
       | Some s => Re.search true Patterns.contact_keyword None s
       | None => false
       end)
    soup.

(** The body of the loop over the contact elements (lines 372-381). *)
Definition contact_elem_body (elem : node) : list string :=
  flat_map
    (fun m =>
       let phone := phone_of_match m in
       if (10 <=? digit_count phone) && (digit_count phone <=? 15)
       then [phone] else [])
    (phone_matches (get_text " " elem)).

(** The body of the fall-back loop over the whole text (lines 386-394). *)
Definition fallback_body (m : list string) : list string :=
  let phone := phone_of_match m in
  if (10 <=? digit_count phone) && (digit_count phone <=? 15) then
    if negb (Py.any_in ["1234567890"; "0000000000"] phone) then [phone] else []
  else [].

Definition extract_phone_numbers (soup : node) (text : string) : gset string :=
  let phones := ∅ in
  let phones := for_add tel_body (links soup) phones in
  let phones := for_add contact_elem_body (contact_elements soup) phones in
  if bool_decide (size phones < 2)
  then for_add fallback_body (phone_matches text) phones
  else phones.

(** *** [extract_physical_address] *)

Definition address_keywords : list string :=
  ["address"; "location"; "visit us"; "our office"; "headquarters"].

(** [get_text(strip=True)] has the empty separator. *)
Definition address_parts (element : node) : list string :=
  get_text "" <$> find_all (fun d => has_attr d "itemprop") element.

(** The loop over the [PostalAddress] elements (lines 449-454): the
    value returned from inside the loop, if any. *)
Fixpoint schema_address (elements : list node) : option string :=
  match elements with
  | [] => None
  | element :: rest =>
      match address_parts element with
      | [] => schema_address rest
      | parts => Some (Py.join ", " parts)
      end
  end.

(** The loop over the [address], [div] and [p] elements (lines 457-463). *)
Fixpoint keyword_address (elements : list node) : option string :=
  match elements with
  | [] => None
  | element :: rest =>
      let elem_text := Py.lower (get_text "" element) in
      if existsb (fun keyword => Py.contains keyword elem_text) address_keywords then
        let full_text := get_text "" element in
        if (20 <? String.length full_text) && (String.length full_text <? 500)
        then Some (Py.take 200 full_text)
        else keyword_address rest
      else keyword_address rest
  end.

Definition postal_elements (soup : node) : list node :=
  find_all
    (fun d =>
       match attr d "itemtype" with
       | Some v => Re.search false Patterns.postal_address None v
       | None => false
       end)
    soup.

Definition extract_physical_address (soup : node) (text : string) : string :=
  match schema_address (postal_elements soup) with
  | Some a => a
  | None =>
      match keyword_address (find_all (named_in ["address"; "div"; "p"]) soup) with
      | Some a => a
      | None => ""
      end
  end.

End Extractors.

(** ** The browser *)

(** The points of a page visit at which the browser, or the code
  working on what it returned, can raise. *)
Inductive step : Type :=
| Get            (* driver.get(url) *)
| Wait           (* WebDriverWait(...).until(body present): TimeoutException *)
| Source         (* driver.page_source, the parse, get_text, driver.current_url *)
| Emails         (* extract_emails *)
| Phones         (* extract_phone_numbers *)
| Social         (* extract_social_links *)
| Address        (* extract_physical_address *)
| ContactLink.   (* find_contact_page *)

Global Instance step_eq_dec : EqDecision step.
Proof. solve_decision. Defined.

(** What visiting a URL gives: the parsed page, the URL the browser
  ends on, and the steps that raise. *)
Record visit : Type := Visit {
raises : step -> bool;
page_source : Dom.node;
current_url : string
}.

(** One page of the result listing: whether the wait for the element
  with id [search] succeeds (otherwise the iteration raises), the
  parsed page, and, for each of the three ways of finding the
  [Next] control in turn, whether it ends with
  [next_button_found = True]. *)
Record listing_page : Type := ListingPage {
lp_ready : bool;
lp_source : Dom.node;
lp_next_by_id : bool;
lp_next_by_label : bool;
lp_next_by_text : bool
}.

(** A search session: whether opening the search engine and
  submitting the query go through, and the listing pages the
  browser shows, numbered from 1. *)
Record search_session : Type := SearchSession {
ss_submitted : bool;
ss_pages : Z -> listing_page
}.

(** [self.driver] when it is not [None].  A URL is taken to load the
  same way each time it is visited. *)
Record driver : Type := Driver {
google : string -> search_session;
fetch : string -> visit
}.

(** ** [search_google] *)

Section SearchGoogle.
Import Dom.

(** Lines 132-138: the first link of every result block. *)
Definition result_blocks (soup : node) : list node :=
  find_all (fun d => named "div" d && (has_class "g" d || has_attr d "data-hveid")) soup.

Definition block_link (result : node) : list string :=
  match find (fun d => named "a" d && has_attr d "href") result with
  | Some link =>
      if Py.startswith (attr_value link "href") "http" then
        let url := attr_value link "href" in
        if negb (Py.any_in ["google.com"; "youtube.com/results"] url)
        then [url] else []
      else []
  | None => []
  end.

(** Lines 141-147: every link of the results area. *)
Definition area_links (soup : node) : list string :=
  match find (fun d => named "div" d && bool_decide (attr d "id" = Some "search")) soup with
  | Some search_div =>
      flat_map
        (fun link =>
           let href := attr_value link "href" in
           if Py.startswith href "http" && negb (Py.contains "google.com" href)
           then [href] else [])
        (links search_div)
  | None => []
  end.

Definition result_links (soup : node) : list string :=
  match flat_map block_link (result_blocks soup) with
  | [] => area_links soup
  | l => l
  end.

(** The state of the loop: [urls], [seen], [page], and the pages
    whose links have been taken so far (one entry per
    ["Page n: Found ..."] line of the log). *)
Record harvest : Type := Harvest {
  urls : list string;
  seen : gset string;
  page : Z;
  pages_read : list Z
}.

(** Lines 151-155. *)
Definition add_unique (max_results : Z) (h : harvest) (url : string) : harvest :=
  if bool_decide (url ∉ seen h) && bool_decide (Z.of_nat (length (urls h)) < max_results)%Z
  then {| urls := urls h ++ [url]; seen := seen h ∪ {[url]};
          page := page h; pages_read := pages_read h |}
  else h.

Definition next_button_found (lp : listing_page) : bool :=
  lp_next_by_id lp || lp_next_by_label lp || lp_next_by_text lp.

(** The [while] loop of lines 116-216.  Each round either leaves the
    loop or moves to the next page; [fuel] bounds the rounds, and
    [None] means the bound was too small. *)
Fixpoint harvest_loop (fuel : nat) (s : search_session)
    (max_results max_pages : Z) (h : harvest) : option harvest :=
  if bool_decide (Z.of_nat (length (urls h)) < max_results)%Z
     && bool_decide (page h ≤ max_pages)%Z
  then
    match fuel with
    | O => None
    | S fuel' =>
        let lp := ss_pages s (page h) in
        if negb (lp_ready lp) then Some h            (* except ...: break *)
        else
          let h := foldl (add_unique max_results) h (result_links (lp_source lp)) in
          let h := {| urls := urls h; seen := seen h; page := page h;
                      pages_read := pages_read h ++ [page h] |} in
          if bool_decide (max_results ≤ Z.of_nat (length (urls h)))%Z then Some h
          else if bool_decide (page h < max_pages)%Z then
            if next_button_found lp
            then harvest_loop fuel' s max_results max_pages
                   {| urls := urls h; seen := seen h; page := (page h + 1)%Z;
                      pages_read := pages_read h |}
            else Some h
          else Some h
    end
  else Some h.

(** Line 92. *)
Definition max_pages_for (max_results : Z) : Z := ((max_results + 9) `div` 10)%Z.

(** Lines 89-91: [urls = []], [seen = set()], [page = 1]. *)
Definition harvest_start : harvest :=
  {| urls := []; seen := ∅; page := 1%Z; pages_read := [] |}.

(** The run of [search_google] down to the [return]: the final
    state of the loop. *)
Definition search_google_run (drv : option driver) (query : string)
    (max_results : Z) : option harvest :=
  match drv with
  | None => Some harvest_start
  | Some d =>
      let max_pages := max_pages_for max_results in
      let s := google d query in
      if ss_submitted s
      then harvest_loop (Z.to_nat max_pages) s max_results max_pages harvest_start
      else Some harvest_start
  end.

Definition search_google (drv : option driver) (query : string)
    (max_results : Z) : option (list string) :=
  urls <$> search_google_run drv query max_results.

End SearchGoogle.

(** ** Floats *)

(** A Python [float]: a number, an infinity, or no number at all. *)
Inductive pyfloat : Type :=
| Finite (q : QArith_base.Q)
| Infinity (negative : bool)
| NotANumber.

(** ** The record of one site *)

Module Result.
(** The dictionary [result] of [scrape_site]; its keys never change. *)
Record contact_record : Type := ContactRecord {
  url : string;
  emails : string;
  phone_numbers : string;
  facebook : string;
  instagram : string;
  twitter_x : string;
  tiktok : string;
  youtube : string;
  linkedin : string;
  physical_address : string;
  contact_page_url : string
}.

(** The initial value of [result] (lines 500-512). *)
Definition initial (u : string) : contact_record :=
  {| url := u; emails := ""; phone_numbers := "";
     facebook := ""; instagram := ""; twitter_x := ""; tiktok := "";
     youtube := ""; linkedin := "";
     physical_address := ""; contact_page_url := "" |}.
End Result.

(** ** Links, the per-site crawl and the crawl of a list *)

Section Scraper.
Import Dom.

(** [urllib.parse.urljoin]: the joined URL, or [None] where it raises
    (a [ValueError], on a malformed bracketed host for one). *)
Variable urljoin : string -> string -> option string.

(** A [for] loop that updates [acc] and leaves by an exception as soon
    as its body raises. *)
Fixpoint for_each {A B} (body : B -> A -> option B) (items : list A) (acc : B)
    : option B :=
  match items with
  | [] => Some acc
  | x :: rest => acc' ← body acc x; for_each body rest acc'
  end.

(** *** [extract_social_links] *)

Definition social_media_domains : list (string * list string) :=
  [ ("facebook", ["facebook.com"; "fb.com"]);
    ("instagram", ["instagram.com"]);
    ("twitter_x", ["twitter.com"; "x.com"]);
    ("tiktok", ["tiktok.com"]);
    ("youtube", ["youtube.com"; "youtu.be"]);
    ("linkedin", ["linkedin.com"]) ].

Definition empty_social : gmap string string :=
  list_to_map ((fun pd => (pd.1, "")) <$> social_media_domains).

(** [d[key]] for a key that is there, [d.get(key)] otherwise: both
    are only tested for emptiness or read where the key is there. *)
Definition value_of (d : gmap string string) (key : string) : string :=
  default "" (d !! key).

(** The body of the loop over the platforms (lines 424-430): the
    inner loop over the domains stores the link at the first domain
    found in [href] and stops. *)
Definition platform_step (base_url : string) (link : node)
    (social_links : gmap string string) (pd : string * list string)
    : option (gmap string string) :=
  let href := Py.lower (attr_value link "href") in
  if String.eqb (value_of social_links pd.1) "" then
    if existsb (fun domain => Py.contains domain href) pd.2
    then full_url ← urljoin base_url (attr_value link "href");
         Some (<[pd.1 := full_url]> social_links)
    else Some social_links
  else Some social_links.

Definition link_step (base_url : string) (social_links : gmap string string)
    (link : node) : option (gmap string string) :=
  for_each (platform_step base_url link) social_media_domains social_links.

Definition extract_social_links (soup : node) (base_url : string)
    : option (gmap string string) :=
  for_each (link_step base_url) (links soup) empty_social.

(** *** [find_contact_page] *)

Definition contact_words : list string := ["contact"; "get-in-touch"; "reach-us"].

Fixpoint first_contact_link (base_url : string) (ls : list node) : option string :=
  match ls with
  | [] => Some ""
  | link :: rest =>
      let href := Py.lower (attr_value link "href") in
      let text := Py.lower (get_text "" link) in
      if existsb (fun word => Py.contains word href || Py.contains word text)
           contact_words
      then urljoin base_url (attr_value link "href")
      else first_contact_link base_url rest
  end.

Definition find_contact_page (soup : node) (base_url : string) : option string :=
  first_contact_link base_url (links soup).

(** *** [scrape_site] *)

(** The local variables [emails], [phones], [social] and [address]. *)
Record found : Type := Found {
  emails : gset string;
  phones : gset string;
  social : gmap string string;
  address : string
}.

(** What a visit works on: the local variables, and the URLs the
    browser has been sent to so far, that is the arguments of the
    calls of [driver.get], in order. *)
Record world : Type := World {
  vars : found;
  history : list string
}.

(** A computation that can raise: the local variables and the
    history of the browser as they are when it ends, and its value
    unless it raised.  What was assigned, and where the browser was
    sent, before an exception stays so. *)
Definition M (A : Type) : Type := world -> world * option A.

Definition ret {A} (a : A) : M A := fun w => (w, Some a).
Definition bind {A B} (m : M A) (f : A -> M B) : M B :=
  fun w =>
    match m w with
    | (w', Some a) => f a w'
    | (w', None) => (w', None)
    end.
Definition raise {A} : M A := fun w => (w, None).
Definition get_found : M found := fun w => (w, Some (vars w)).
Definition put_found (st' : found) : M unit :=
  fun w => ({| vars := st'; history := history w |}, Some tt).

#[local] Instance M_ret : MRet M := @ret.
#[local] Instance M_bind : MBind M := fun A B f m => bind m f.

(** A call at step [s] of a visit: it raises when the visit says so
    or when the computation itself does ([None]). *)
Definition call {A} (v : visit) (s : step) (a : option A) : M A :=
  if raises v s then raise
  else match a with Some x => ret x | None => raise end.

(** [self.driver.get(u)], where [v] is what visiting [u] gives: the
    browser is sent to [u], and the call raises when the visit says
    so. *)
Definition driver_get (v : visit) (u : string) : M unit :=
  fun w => call v Get (Some tt) {| vars := vars w; history := history w ++ [u] |}.

(** Lines 571-573. *)
Definition merge_social (contact_social social : gmap string string)
    : gmap string string :=
  foldl
    (fun soc kv =>
       if negb (String.eqb kv.2 "") && String.eqb (value_of soc kv.1) ""
       then <[kv.1 := kv.2]> soc else soc)
    social (map_to_list contact_social).

(** The body of the inner [try] (lines 554-577). *)
Definition contact_try (v : visit) (contact_page : string) : M unit :=
  driver_get v contact_page;;
  call v Wait (Some tt);;
  contact_soup ← call v Source (Some (page_source v));
  let contact_text := get_text " " contact_soup in
  more_emails ← call v Emails (Some (extract_emails contact_soup contact_text));
  st ← get_found;
  put_found {| emails := emails st ∪ more_emails; phones := phones st;
               social := social st; address := address st |};;
  more_phones ← call v Phones (Some (extract_phone_numbers contact_soup contact_text));
  st ← get_found;
  put_found {| emails := emails st; phones := phones st ∪ more_phones;
               social := social st; address := address st |};;
  contact_social ← call v Social (extract_social_links contact_soup contact_page);
  st ← get_found;
  put_found {| emails := emails st; phones := phones st;
               social := merge_social contact_social (social st);
               address := address st |};;
  st ← get_found;
  if String.eqb (address st) "" then
    contact_address ←
      call v Address (Some (extract_physical_address contact_soup contact_text));
    put_found {| emails := emails st; phones := phones st;
                 social := social st; address := contact_address |}
  else ret tt.

(** The inner [try] as the local variables see it: what it makes of
    them, and whether it ends without an exception. *)
Definition contact_pass (v : visit) (contact_page : string) (st : found)
    : found * option unit :=
  let r := contact_try v contact_page {| vars := st; history := [] |} in
  (vars r.1, r.2).

(** The test of line 551. *)
Definition wants_contact_page (contact_page current : string) (st : found) : bool :=
  negb (String.eqb contact_page "") && negb (String.eqb contact_page current)
  && ((size (emails st) =? 0) || (size (phones st) =? 0)).

(** Lines 583-588. *)
Definition fill_result (current contact_page : string) (st : found)
    : Result.contact_record :=
  {| Result.url := current;
     Result.emails := Py.join ", " (Py.sorted (emails st));
     Result.phone_numbers := Py.join ", " (Py.sorted (phones st));
     Result.facebook := value_of (social st) "facebook";
     Result.instagram := value_of (social st) "instagram";
     Result.twitter_x := value_of (social st) "twitter_x";
     Result.tiktok := value_of (social st) "tiktok";
     Result.youtube := value_of (social st) "youtube";
     Result.linkedin := value_of (social st) "linkedin";
     Result.physical_address := address st;
     Result.contact_page_url := contact_page |}.

(** What one call of [scrape_site] leaves behind: the dictionary it
    returns and the URLs it asked the browser to load, in order. *)
Record outcome : Type := Outcome {
  result : Result.contact_record;
  gets : list string
}.

(** The steps of the main page whose exception leaves the outer
    [try]; a time-out of its wait is caught on the spot (lines
    523-528). *)
Definition main_steps : list step :=
  [Get; Source; Emails; Phones; Social; Address; ContactLink].

(** The main-page pass (lines 520-548): the local variables and the
    contact page found, or [None] when something raises, which leaves
    the outer [try] before [result] is touched. *)
Definition main_pass (v : visit) : option (found * string) :=
  if existsb (raises v) main_steps then None
  else
    let soup := page_source v in
    let text := get_text " " soup in
    social ← extract_social_links soup (current_url v);
    contact_page ← find_contact_page soup (current_url v);
    Some ({| emails := extract_emails soup text;
             phones := extract_phone_numbers soup text;
             social := social;
             address := extract_physical_address soup text |},
          contact_page).

(** The outer [try] down to line 548, in the world of the visit: the
    browser is sent to [url] (line 520), and the pass assigns the
    local variables and gives the contact page, or raises. *)
Definition main_try (v : visit) (url : string) : M string :=
  driver_get v url;;
  match main_pass v with
  | Some (st, contact_page) => put_found st;; ret contact_page
  | None => raise
  end.

(** The local variables before the main page assigns them. *)
Definition unassigned : found :=
  {| emails := ∅; phones := ∅; social := ∅; address := "" |}.

(** The whole of [scrape_site] (lines 500-599); [gets] is the
    history of the browser when it returns. *)
Definition scrape_site_run (drv : option driver) (url : string) : outcome :=
  match drv with
  | None => {| result := Result.initial url; gets := [] |}
  | Some d =>
      let v := fetch d url in
      match main_try v url {| vars := unassigned; history := [] |} with
      | (w, None) => {| result := Result.initial url; gets := history w |}
      | (w, Some contact_page) =>
          if wants_contact_page contact_page (current_url v) (vars w) then
            let w' := (contact_try (fetch d contact_page) contact_page w).1 in
            {| result := fill_result (current_url v) contact_page (vars w');
               gets := history w' |}
          else
            {| result := fill_result (current_url v) contact_page (vars w);
               gets := history w |}
      end
  end.

Definition scrape_site (drv : option driver) (url : string) : Result.contact_record :=
  result (scrape_site_run drv url).

(** *** [scrape_multiple_sites] *)

(** The least length, in seconds, that the clock of [time.sleep]
    cannot hold; it depends on the platform. *)
Variable clock_limit : QArith_base.Q.

(** Whether [time.sleep(delay)] returns.  It raises a [ValueError]
    for a negative length and for one that is not a number, and an
    [OverflowError] for one the clock cannot hold. *)
Definition sleep_accepts (delay : pyfloat) : bool :=
  match delay with
  | Finite q =>
      QArith_base.Qle_bool (QArith_base.Qmake 0 1) q
      && negb (QArith_base.Qle_bool clock_limit q)
  | Infinity _ | NotANumber => false
  end.

(** The loop of lines 614-621, from [results] on: a site is scraped
    and its record appended; unless it was the last one,
    [time.sleep(delay)] is called, and what it raises is caught
    nowhere ([None]). *)
Fixpoint scrape_loop (drv : option driver) (delay : pyfloat) (urls : list string)
    (results : list Result.contact_record) : option (list Result.contact_record) :=
  match urls with
  | [] => Some results
  | url :: rest =>
      let results := results ++ [scrape_site drv url] in
      match rest with
      | [] => Some results
      | _ :: _ =>
          if sleep_accepts delay then scrape_loop drv delay rest results else None
      end
  end.

Definition scrape_multiple_sites (drv : option driver) (urls : list string)
    (delay : pyfloat) : option (list Result.contact_record) :=
  scrape_loop drv delay urls [].

End Scraper.

(** * The vocabulary of the statements *)

Section Vocabulary.
Import Dom.

(** ** Where a phone number or an email of the result comes from *)

(** Where a string of the result can come from. *)
Definition phone_from_tel (soup : node) (p : string) : Prop :=
  ∃ link, link ∈ links soup ∧ p ∈ tel_body link.
Definition phone_from_contact_element (soup : node) (p : string) : Prop :=
  ∃ elem, elem ∈ contact_elements soup ∧ p ∈ contact_elem_body elem.
Definition phone_from_fallback (text : string) (p : string) : Prop :=
  ∃ m, m ∈ phone_matches text ∧ p ∈ fallback_body m.

Definition email_from_mailto (soup : node) (e : string) : Prop :=
  ∃ link, link ∈ links soup ∧ e ∈ mailto_body link.
Definition email_from_text (text : string) (e : string) : Prop :=
  ∃ found, found ∈ Re.findall false Patterns.email_pattern text
           ∧ e ∈ text_email_body found.
Definition email_from_meta (soup : node) (e : string) : Prop :=
  ∃ meta, meta ∈ find_all (named "meta") soup ∧ e ∈ meta_body meta.

(** [e] contains an entry of the deny-list of line 325. *)
Definition denylisted (e : string) : bool := Py.any_in email_denylist e.

(** ** The search *)

(** The first occurrences of the members of a list, in order. *)
Definition keep_first (acc : list string) (x : string) : list string :=
  if decide (x ∈ acc) then acc else acc ++ [x].
Definition first_occurrences (l : list string) : list string :=
  foldl keep_first [] l.

(** The links of listing page [p] of the session a query opens. *)
Definition page_links (s : search_session) (p : Z) : list string :=
  result_links (lp_source (ss_pages s p)).

(** Everything the pages read so far have offered, in order. *)
Definition offered (s : search_session) (ps : list Z) : list string :=
  flat_map (page_links s) ps.

(** What the loop keeps true: [seen] is the set of [urls], and
    [urls] is the first [max_results] first occurrences of what the
    pages read have offered. *)
Definition harvest_inv (s : search_session) (N : Z) (h : harvest) : Prop :=
  seen h = list_to_set (urls h)
  ∧ urls h = take (Z.to_nat N) (first_occurrences (offered s (pages_read h))).

(** What the pages read have offered, for the session of a query. *)
Definition session_offered (drv : option driver) (query : string) (ps : list Z)
    : list string :=
  match drv with
  | Some d => offered (google d query) ps
  | None => []
  end.

(** The listing of the scenario: the session opens, the first page
    is ready and offers [l1], its [Next] control is found, the second
    page is ready and offers [l2]. *)
Definition two_pages (drv : option driver) (query : string)
    (l1 l2 : list string) : Prop :=
  ∃ d, drv = Some d
       ∧ ss_submitted (google d query) = true
       ∧ lp_ready (ss_pages (google d query) 1) = true
       ∧ next_button_found (ss_pages (google d query) 1) = true
       ∧ lp_ready (ss_pages (google d query) 2) = true
       ∧ page_links (google d query) 1 = l1
       ∧ page_links (google d query) 2 = l2.

(** ** Social links *)

(** A link matches a platform when its lower-cased [href] contains
    one of the platform's domains. *)
Definition link_matches (domains : list string) (link : node) : bool :=
  existsb (fun domain => Py.contains domain (Py.lower (attr_value link "href"))) domains.

(** [ref] contains a domain of the table, in any case of letters. *)
Definition mentions_platform (ref : string) : bool :=
  existsb (fun pd => existsb (fun domain => Py.contains domain (Py.lower ref)) pd.2)
    social_media_domains.

(** How a value of the dictionary comes about: a value that is there
    stays; an empty one becomes the joined URL of the link at hand,
    if there is one, and stays empty otherwise. *)
Definition settled (urljoin : string -> string -> option string)
    (base : string) (before : string) (hit : option node)
    (after : string) : Prop :=
  if String.eqb before "" then
    match hit with
    | Some link => urljoin base (attr_value link "href") = Some after
    | None => after = ""
    end
  else after = before.

(** The first matching link in document order. *)
Definition first_match (domains : list string) (soup : node) : option node :=
  List.find (link_matches domains) (links soup).

(** ** The crawl *)

(** The condition of line 551, as a proposition. *)
Definition fallback_due (contact_page current : string) (st : found) : Prop :=
  contact_page ≠ "" ∧ contact_page ≠ current
  ∧ (size (emails st) = 0 ∨ size (phones st) = 0).

(** [st'] keeps what [st] has: every email and phone number, every
    non-empty social link, and a non-empty address. *)
Definition keeps (st st' : found) : Prop :=
  emails st ⊆ emails st'
  ∧ phones st ⊆ phones st'
  ∧ (∀ k, value_of (social st) k ≠ "" → value_of (social st') k = value_of (social st) k)
  ∧ (address st ≠ "" → address st' = address st).

(** The address a page gives by itself. *)
Definition page_address (v : visit) : string :=
  extract_physical_address (page_source v) (get_text " " (page_source v)).

(** The visit of a URL fails: there is no browser, or the main page
    raises before the record is filled. *)
Definition visit_fails (urljoin : string -> string -> option string)
    (drv : option driver) (url : string) : Prop :=
  match drv with
  | None => True
  | Some d => main_pass urljoin (fetch d url) = None
  end.

End Vocabulary.

(** * Sample pages and browsers *)

Section Samples.
Import Dom.

(** A page with two [tel:] links and no text. *)
Definition short_tel_page : node :=
  soup [ Elem "a" {[ "href" := "tel:123" ]} [];
         Elem "a" {[ "href" := "tel:0000000000" ]} [] ].

(** A page whose only text is a run of ten equal digits. *)
Definition repeated_digit_page : node :=
  soup [ Elem "p" ∅ [Text "2222222222"] ].

(** A paragraph that names a phone number. *)
Definition phone_paragraph : node :=
  soup [ Elem "p" ∅ [Text "Phone: 212-555-0199"] ].

(** A page whose only contact detail is a [mailto:] link to a
    placeholder domain, and one that names such an address in a
    [meta] tag. *)
Definition placeholder_mailto_page : node :=
  soup [ Elem "a" {[ "href" := "mailto:info@example.com" ]} [] ].
Definition placeholder_meta_page : node :=
  soup [ Elem "meta" {[ "content" := "write to owner@test.com" ]} [] ].

(** A page that names an address of its own shop. *)
Definition shop_page : node := soup [ Elem "p" ∅ [Text "Write to Hello@Shop.io today"] ].

(** [n] copies of the letter x. *)
Fixpoint xs (n : nat) : string :=
  match n with O => "" | S n' => String "x" (xs n') end.

(** A page with a structured address whose street line has 201
    characters. *)
Definition long_postal_page : node :=
  soup [ Elem "div" {[ "itemtype" := "https://schema.org/PostalAddress" ]}
           [ Elem "span" {[ "itemprop" := "streetAddress" ]} [Text (xs 201)] ] ].

(** A listing page with one result block per link. *)
Definition listing (hrefs : list string) : node :=
  soup [ Elem "div" {[ "id" := "search" ]}
           ((fun u => Elem "div" {[ "class" := "g" ]}
                        [Elem "a" {[ "href" := u ]} [Text "shop"]]) <$> hrefs) ].

(** Ten shops, and five more. *)
Definition first_ten : list string :=
  [ "https://a01.myshopify.com/"; "https://a02.myshopify.com/";
    "https://a03.myshopify.com/"; "https://a04.myshopify.com/";
    "https://a05.myshopify.com/"; "https://a06.myshopify.com/";
    "https://a07.myshopify.com/"; "https://a08.myshopify.com/";
    "https://a09.myshopify.com/"; "https://a10.myshopify.com/" ].

Definition next_five : list string :=
  [ "https://b01.myshopify.com/"; "https://b02.myshopify.com/";
    "https://b03.myshopify.com/"; "https://b04.myshopify.com/";
    "https://b05.myshopify.com/" ].

(** A session with ten results on its first page, five on its
    second, and more behind a [Next] control that is always there. *)
Definition two_page_session : search_session :=
  {| ss_submitted := true;
     ss_pages := fun p =>
       {| lp_ready := true;
          lp_source := listing (if bool_decide (p = 1%Z) then first_ten
                                else if bool_decide (p = 2%Z) then next_five
                                else ["https://c01.myshopify.com/"]);
          lp_next_by_id := false; lp_next_by_label := true;
          lp_next_by_text := false |} |}.

(** A page with nothing on it. *)
Definition empty_page : visit :=
  {| raises := fun _ => false; page_source := soup []; current_url := "" |}.

(** A browser whose every search opens that session. *)
Definition two_page_driver : driver :=
  {| google := fun _ => two_page_session; fetch := fun _ => empty_page |}.

(** A clock that holds 2 to the power 63 nanoseconds, as that of
    CPython on a 64-bit platform: some 9223372037 seconds. *)
Definition unix_clock : QArith_base.Q := QArith_base.Qmake 9223372037 1.

(** A stand-in for [urljoin] in the examples: it gives up on a
    reference with a bracket, keeps an absolute reference, and appends
    anything else to the base. *)
Definition simple_urljoin (base ref : string) : option string :=
  if Py.contains "[" ref then None
  else Some (if Py.startswith ref "http" then ref else base +:+ ref).

(** A page with two links to the same platform, and one to another. *)
Definition two_facebook_page : node :=
  soup [ Elem "a" {[ "href" := "https://www.facebook.com/first" ]} [];
         Elem "a" {[ "href" := "/pages/instagram.com/shop" ]} [];
         Elem "a" {[ "href" := "https://FB.com/second" ]} [] ].

End Samples.

(** ** A shop and its contact page *)

Module Shop.
Import Dom.

(** The address of the shop. *)
Definition home : string := "https://shop.example".

(** The main page: an email, a Facebook link, an address, a link to
    the contact page, no phone number. *)
Definition main_page : node :=
  soup [ Elem "a" {[ "href" := "mailto:Sales@Shop.example" ]} [Text "Write"];
         Elem "a" {[ "href" := "https://facebook.com/shop" ]} [Text "FB"];
         Elem "a" {[ "href" := "/pages/contact" ]} [Text "Contact Us"];
         Elem "p" ∅ [Text "Our address: 1 Main Street, Springfield"] ].

(** The contact page: a phone number, other social links, another
    address. *)
Definition contact_page : node :=
  soup [ Elem "a" {[ "href" := "tel:+1-555-201-1234" ]} [Text "Ring"];
         Elem "a" {[ "href" := "https://facebook.com/other" ]} [];
         Elem "a" {[ "href" := "https://instagram.com/shop" ]} [];
         Elem "p" ∅ [Text "Visit us at 99 Other Road, Shelbyville"] ].

(** The contact page raises when its social links are read; a third
    URL does not load at all. *)
Definition web (u : string) : visit :=
  if String.eqb u home then
    {| raises := fun _ => false; page_source := main_page; current_url := home |}
  else if String.eqb u "https://shop.example/pages/contact" then
    {| raises := fun s => bool_decide (s = Social);
       page_source := contact_page; current_url := u |}
  else
    {| raises := fun s => bool_decide (s = Get);
       page_source := soup []; current_url := u |}.

(** A browser on that web, with no search engine to reach. *)
Definition browser : driver :=
  {| google := fun _ => {| ss_submitted := false;
                           ss_pages := fun _ =>
                             {| lp_ready := false; lp_source := soup [];
                                lp_next_by_id := false; lp_next_by_label := false;
                                lp_next_by_text := false |} |};
     fetch := web |}.

End Shop.

(** * The rest of the program *)

(** ** [close_popups] *)

Section ClosePopups.

(** The browser as [close_popups] meets it: a tab in some state, the
    elements a CSS selector finds in it, whether an element is
    displayed, what a click makes of the tab and whether it goes
    through, and the tab half a second later.  [None] and [false] stand
    for a call that raises. *)
Context {tab web_element : Type}.
Variable find_elements : tab -> string -> option (list web_element).
Variable is_displayed : tab -> web_element -> option bool.
Variable click : tab -> web_element -> tab * bool.
Variable pause : tab -> tab.

(** Lines 267-281. *)
Definition close_selectors : list string :=
  [ "button[aria-label*='Close']";
    "button[class*='close']";
    "button[class*='dismiss']";
    "button[id*='close']";
    "a[class*='close']";
    "div[class*='modal'] button";
    ".modal-close";
    ".popup-close";
    "[data-dismiss='modal']";
    "button.cookie-accept";
    "button.cookie-consent";
    "#onetrust-accept-btn-handler";
    ".cookie-banner button" ].

(** What the browser is asked to do, with the state of the tab at
    that moment. *)
Inductive action : Type :=
  | Looked (selector : string) (t : tab)
  | Click (selector : string) (e : web_element) (t : tab).

(** The loop over the elements of one selector (lines 286-290): the
    tab and the log when it ends, by itself or by an exception. *)
Fixpoint click_displayed (selector : string) (elements : list web_element)
    (t : tab) (log : list action) : tab * list action :=
  match elements with
  | [] => (t, log)
  | e :: rest =>
      match is_displayed t e with
      | None => (t, log)
      | Some false => click_displayed selector rest t log
      | Some true =>
          let log := log ++ [Click selector e t] in
          match click t e with
          | (t', true) => click_displayed selector rest (pause t') log
          | (t', false) => (t', log)
          end
      end
  end.

(** The body of the loop over the selectors (lines 283-292); whatever
    is raised inside goes to [except: continue]. *)
Definition selector_step (st : tab * list action) (selector : string)
    : tab * list action :=
  let log := st.2 ++ [Looked selector st.1] in
  match find_elements st.1 selector with
  | None => (st.1, log)
  | Some elements => click_displayed selector elements st.1 log
  end.

Definition close_popups (t : tab) : tab * list action :=
  foldl selector_step (t, []) close_selectors.

(** The selectors looked up, in order. *)
Definition lookups (log : list action) : list string :=
  flat_map (fun a => match a with Looked s _ => [s] | Click _ _ _ => [] end) log.

End ClosePopups.

(** ** Saving, and the command line *)

Inductive output_format : Type := Csv | Excel | Both.

(** What [parse_args] gives [main]; an option that was not given is
    [None].  [--no-headless] only reaches the launch of the browser. *)
Record cli : Type := Cli {
  cli_query : option string;
  cli_country : option string;
  cli_urls : option (list string);
  cli_max_results : Z;
  cli_output : string;
  cli_format : output_format;
  cli_delay : pyfloat;
  cli_url_file : option string
}.

Inductive file_kind : Type := CsvFile | ExcelFile.

(** A file written: its kind, its name and its rows. *)
Record written : Type := Written {
  w_kind : file_kind;
  w_name : string;
  w_rows : list Result.contact_record
}.

(** What a run of [main] does: the URLs it hands to
    [scrape_multiple_sites], the files it writes, and whether it gets
    to its end rather than being left by an exception. *)
Record session : Type := Session {
  scraped : list string;
  files : list written;
  finished : bool
}.

Section Main.

Variable urljoin : string -> string -> option string.
Variable clock_limit : QArith_base.Q.

(** The lines of a text file as a loop over the open file yields
    them, [None] when opening or reading it raises. *)
Variable read_lines : string -> option (list string).

(** Whether writing a file of that name goes through. *)
Variable can_write : string -> bool.

(** [save_to_csv] and [save_to_excel] (lines 625-655): the file
    written, if any, and whether the call returns. *)
Definition save_to (kind : file_kind) (data : list Result.contact_record)
    (filename : string) : list written * bool :=
  match data with
  | [] => ([], true)
  | _ => if can_write filename
         then ([{| w_kind := kind; w_name := filename; w_rows := data |}], true)
         else ([], false)
  end.

Definition save_to_csv := save_to CsvFile.
Definition save_to_excel := save_to ExcelFile.

(** A string option that is given and not empty. *)
Definition given (o : option string) : option string :=
  match o with
  | Some s => if String.eqb s "" then None else Some s
  | None => None
  end.

(** The double quote. *)
Definition dquote : string := String "034" "".

(** Line 735. *)
Definition country_query (country : string) : string :=
  "site:myshopify.com " +:+ dquote +:+ country +:+ dquote
  +:+ " intitle:" +:+ dquote +:+ "contact" +:+ dquote.

(** Lines 728-739. *)
Definition chosen_urls (drv : option driver) (a : cli) : option (list string) :=
  match given (cli_query a) with
  | Some query => search_google drv query (cli_max_results a)
  | None =>
      match given (cli_country a) with
      | Some country => search_google drv (country_query country) (cli_max_results a)
      | None =>
          match cli_urls a with
          | Some (u :: us) => Some (u :: us)
          | _ => Some []
          end
      end
  end.

(** Line 745. *)
Definition file_urls (lines : list string) : list string :=
  flat_map
    (fun line => if negb (String.eqb (Py.strip line) "") then [Py.strip line] else [])
    lines.

(** Lines 742-749. *)
Definition urls_of_file (a : cli) : list string :=
  match given (cli_url_file a) with
  | Some name =>
      match read_lines name with
      | Some lines => file_urls lines
      | None => []
      end
  | None => []
  end.

Definition wants_csv (f : output_format) : bool :=
  match f with Csv | Both => true | Excel => false end.
Definition wants_excel (f : output_format) : bool :=
  match f with Excel | Both => true | Csv => false end.

(** [main], from the parsed arguments on (lines 724-771); [drv] is
    [self.driver] as the constructor leaves it.  An exception of
    [scrape_multiple_sites] or of a save leaves [main] on the spot. *)
Definition main (drv : option driver) (a : cli) : option session :=
  urls ← chosen_urls drv a;
  let urls := urls ++ urls_of_file a in
  match urls with
  | [] => Some {| scraped := []; files := []; finished := true |}
  | _ =>
      match scrape_multiple_sites urljoin clock_limit drv urls (cli_delay a) with
      | None => Some {| scraped := urls; files := []; finished := false |}
      | Some results =>
          let csv :=
            if wants_csv (cli_format a)
            then save_to_csv results (cli_output a +:+ ".csv") else ([], true) in
          if csv.2 then
            let excel :=
              if wants_excel (cli_format a)
              then save_to_excel results (cli_output a +:+ ".xlsx") else ([], true) in
            Some {| scraped := urls; files := csv.1 ++ excel.1; finished := excel.2 |}
          else Some {| scraped := urls; files := csv.1; finished := false |}
      end
  end.

End Main.

(** * The vocabulary of the further properties *)

Section MoreVocabulary.
Import Dom.

(** Every character of [s] satisfies [p]. *)
Fixpoint all_chars (p : ascii -> bool) (s : string) : bool :=
  match s with
  | EmptyString => true
  | String c s' => p c && all_chars p s'
  end.

(** A character a cleaned [tel:] number may hold. *)
Definition phone_char (c : ascii) : bool :=
  Re.cls_match false false Patterns.phone_chars c.

(** The numbers the loops over the [tel:] links and over the contact
    elements leave in [phones] (lines 360-381), before the text is
    looked at. *)
Definition phones_before_text (soup : node) : gset string :=
  for_add contact_elem_body (contact_elements soup) (for_add tel_body (links soup) ∅).

(** The test of line 459, on one element. *)
Definition mentions_address (element : node) : bool :=
  existsb (fun keyword => Py.contains keyword (Py.lower (get_text "" element)))
    address_keywords.

(** An element the keyword tier passes over: it names no keyword, or
    its text is too short or too long (lines 459-462). *)
Definition passed_over (x : node) : Prop :=
  mentions_address x = false
  ∨ String.length (get_text "" x) ≤ 20
  ∨ 500 ≤ String.length (get_text "" x).

(** [a] is cut from the first element of [els] that is not passed
    over. *)
Definition keyword_pick (els : list node) (a : string) : Prop :=
  ∃ before element after,
    els = before ++ element :: after
    ∧ Forall passed_over before
    ∧ mentions_address element = true
    ∧ 20 < String.length (get_text "" element) < 500
    ∧ a = Py.take 200 (get_text "" element).

(** The test of line 483, on one link. *)
Definition contact_link (link : node) : bool :=
  existsb
    (fun word => Py.contains word (Py.lower (attr_value link "href"))
                 || Py.contains word (Py.lower (get_text "" link)))
    contact_words.

End MoreVocabulary.

(** ** The search, further *)

Section SearchVocabulary.

(** Listing page [p] of a session loaded and showed a [Next] control. *)
Definition turns_over (s : search_session) (p : Z) : Prop :=
  lp_ready (ss_pages s p) = true ∧ next_button_found (ss_pages s p) = true.

(** Why the loop of [search_google] is over in state [h]: the page it
    is on did not load in time, and every page before it was read; or
    that page was read as well and the list is full, or the page is the
    last one allowed, or no [Next] control was found on it. *)
Definition stopped (s : search_session) (N mp : Z) (h : harvest) : Prop :=
  (lp_ready (ss_pages s (page h)) = false ∧ pages_read h = seqZ 1 (page h - 1))
  ∨ (lp_ready (ss_pages s (page h)) = true
     ∧ pages_read h = seqZ 1 (page h)
     ∧ ((N ≤ Z.of_nat (length (urls h)))%Z
        ∨ page h = mp
        ∨ next_button_found (ss_pages s (page h)) = false)).

End SearchVocabulary.

(** ** The crawl, popups and the command line *)

Section RestVocabulary.
Import Dom.

(** Every key is a platform, and every value is empty or the joined
    URL of a link of the page. *)
Definition social_shape (urljoin : string -> string -> option string)
    (base : string) (ls : list node) (sl : gmap string string) : Prop :=
  dom sl = dom empty_social
  ∧ ∀ k v, sl !! k = Some v →
           v = "" ∨ ∃ link, link ∈ ls ∧ urljoin base (attr_value link "href") = Some v.

(** Every click of the log is on an element that said it was
    displayed, and that a lookup of the log had found. *)
Definition clicks_sound {tab web_element : Type}
    (find_elements : tab -> string -> option (list web_element))
    (is_displayed : tab -> web_element -> option bool)
    (log : list (@action tab web_element)) : Prop :=
  ∀ sel e t, Click sel e t ∈ log →
    is_displayed t e = Some true
    ∧ ∃ t0 els, Looked sel t0 ∈ log ∧ find_elements t0 sel = Some els ∧ e ∈ els.

(** A string that does not begin with white space. *)
Definition headed (s : string) : Prop :=
  match s with
  | EmptyString => True
  | String c _ => Py.isspace c = false
  end.

End RestVocabulary.

(** * More sample pages *)

Section MoreSamples.
Import Dom.

(** A [mailto:] link with white space around the address and a
    subject after it. *)
Definition subject_mailto_link : node :=
  Elem "a" {[ "href" := "mailto: Sales@Shop.example ?subject=Hello" ]} [Text "Write"].
Definition subject_mailto_page : node := soup [ subject_mailto_link ].

(** A [tel:] link whose number has letters in it. *)
Definition dial_link : node :=
  Elem "a" {[ "href" := "tel:+1 (555) 201-1234 ext" ]} [Text "Call"].
Definition dial_page : node := soup [ dial_link ].

(** Two [PostalAddress] elements, the first without any [itemprop]. *)
Definition bare_postal : node :=
  Elem "div" {[ "itemtype" := "https://schema.org/PostalAddress" ]} [Text "Somewhere"].
Definition full_postal : node :=
  Elem "div" {[ "itemtype" := "http://schema.org/PostalAddress" ]}
    [ Elem "span" {[ "itemprop" := "streetAddress" ]} [Text "1 Main Street"];
      Elem "span" {[ "itemprop" := "addressLocality" ]} [Text "Springfield"] ].
Definition two_postal_page : node := soup [ bare_postal; full_postal ].

End MoreSamples.

(** ** A stall whose contact page loads without trouble *)

Module Stall.
Import Dom.

Definition home : string := "https://stall.example".

(** The main page: a phone number, an Instagram link, a link to the
    contact page; no email and no address. *)
Definition main_page : node :=
  soup [ Elem "a" {[ "href" := "tel:+1-555-201-9999" ]} [Text "Ring"];
         Elem "a" {[ "href" := "https://instagram.com/stall" ]} [Text "IG"];
         Elem "a" {[ "href" := "/reach-us" ]} [Text "Say hello"] ].

(** The contact page: an email, another phone number, two social
    links, an address. *)
Definition contact_page : node :=
  soup [ Elem "a" {[ "href" := "mailto:hi@stall.example" ]} [Text "Write"];
         Elem "a" {[ "href" := "tel:+1-555-201-0000" ]} [Text "Ring"];
         Elem "a" {[ "href" := "https://instagram.com/other" ]} [];
         Elem "a" {[ "href" := "https://tiktok.com/@stall" ]} [];
         Elem "p" ∅ [Text "Visit us at 5 Market Square, Ogdenville"] ].

Definition web (u : string) : visit :=
  if String.eqb u home then
    {| raises := fun _ => false; page_source := main_page; current_url := home |}
  else
    {| raises := fun _ => false; page_source := contact_page; current_url := u |}.

(** A browser on that web; its search engine shows one page of two
    results and no [Next] control. *)
Definition browser : driver :=
  {| google := fun _ =>
       {| ss_submitted := true;
          ss_pages := fun _ =>
            {| lp_ready := true;
               lp_source := listing ["https://stall.example"; "https://shop.example"];
               lp_next_by_id := false; lp_next_by_label := false;
               lp_next_by_text := false |} |};
     fetch := web |}.

End Stall.

(** * Properties *)

Import Dom.

(** ** Sets built by loops *)

Section ForAdd.
Context {A : Type}.
Implicit Types (body : A -> list string) (items : list A) (S : gset string).

(** What a loop adds is what its rounds add. *)
Lemma elem_of_for_add body items S x :
  x ∈ for_add body items S ↔ x ∈ S ∨ ∃ i, i ∈ items ∧ x ∈ body i.
Proof.
  unfold for_add. revert S.
  induction items as [|i items IH]; intros S; simpl.
  - split; [auto|]. intros [?|(i & Hi & _)]; [done|]. by apply elem_of_nil in Hi.
  - rewrite IH, elem_of_union, elem_of_list_to_set. split.
    + intros [[?|?]|(j & ? & ?)]; [by left|right; exists i|right; exists j];
        split; auto; [left|by right].
    + intros [?|(j & Hj & ?)]; [by left; left|].
      apply elem_of_cons in Hj as [->|?]; [by left; right|right; eauto].
Qed.

Lemma for_add_mono body items S : S ⊆ for_add body items S.
Proof. intros x ?. apply elem_of_for_add. by left. Qed.
End ForAdd.

Lemma length_py_take n s : String.length (Py.take n s) ≤ n.
Proof.
  unfold Py.take. revert s.
  induction n as [|n IH]; intros [|c s]; simpl; try lia.
  specialize (IH s). lia.
Qed.

(** ** The phone extractor *)

(** Every phone number of the result comes out of one of the three
    loops. *)
Lemma phone_provenance soup text p :
  p ∈ extract_phone_numbers soup text →
  phone_from_tel soup p ∨ phone_from_contact_element soup p ∨ phone_from_fallback text p.
Proof.
  unfold extract_phone_numbers. intros Hp.
  assert (p ∈ for_add contact_elem_body (contact_elements soup)
                (for_add tel_body (links soup) ∅) ∨ phone_from_fallback text p) as [H|H].
  { case_bool_decide; [|by left].
    apply elem_of_for_add in Hp as [?|?]; [by left|by right]. }
  - apply elem_of_for_add in H as [H|?]; [|by right; left].
    apply elem_of_for_add in H as [H|?]; [|by left].
    by apply not_elem_of_empty in H.
  - by right; right.
Qed.

Lemma contact_element_digits soup p :
  phone_from_contact_element soup p → 10 ≤ digit_count p ≤ 15.
Proof.
  intros (elem & _ & Hp). unfold contact_elem_body in Hp.
  apply list_elem_of_In, in_flat_map in Hp as (m & _ & Hp).
  destruct (10 <=? _) eqn:H1; [|by destruct Hp].
  destruct (_ <=? 15) eqn:H2; [|by destruct Hp].
  destruct Hp as [<-|[]].
  apply Nat.leb_le in H1, H2. lia.
Qed.

Lemma fallback_digits text p :
  phone_from_fallback text p →
  10 ≤ digit_count p ≤ 15
  ∧ Py.contains "1234567890" p = false ∧ Py.contains "0000000000" p = false.
Proof.
  intros (m & _ & Hp). unfold fallback_body in Hp.
  destruct (10 <=? _) eqn:H1; [|by apply elem_of_nil in Hp].
  destruct (_ <=? 15) eqn:H2; [|by apply elem_of_nil in Hp].
  simpl in Hp.
  destruct (Py.contains "1234567890" _) eqn:H3; [by apply elem_of_nil in Hp|].
  destruct (Py.contains "0000000000" _) eqn:H4; [by apply elem_of_nil in Hp|].
  simpl in Hp. apply list_elem_of_singleton in Hp as ->.
  apply Nat.leb_le in H1, H2. repeat split; auto; lia.
Qed.

(** C1, as stated, fails: a three-digit string and a string of ten
    zeros come out of [tel:] links, and a string of ten equal digits
    comes out of the scan of the text. *)
Lemma phone_bounds_counterexample :
  get_text " " short_tel_page = ""
  ∧ "123" ∈ extract_phone_numbers short_tel_page ""
  ∧ digit_count "123" = 3
  ∧ "0000000000" ∈ extract_phone_numbers short_tel_page ""
  ∧ get_text " " repeated_digit_page = "2222222222"
  ∧ "2222222222" ∈ extract_phone_numbers repeated_digit_page "2222222222".
Proof.
  repeat split; try reflexivity;
    apply (bool_decide_unpack _); vm_compute; exact I.
Qed.

(** C1 (amended): every string of the result comes from a [tel:]
    link, where it is only cleaned and required to be non-empty, or
    has between 10 and 15 digits; a string found by the scan of the
    whole text moreover contains neither [1234567890] nor
    [0000000000]. *)
Theorem phone_digit_bounds soup text p :
  p ∈ extract_phone_numbers soup text →
  (phone_from_tel soup p ∧ p ≠ "")
  ∨ (phone_from_contact_element soup p ∧ 10 ≤ digit_count p ≤ 15)
  ∨ (phone_from_fallback text p ∧ 10 ≤ digit_count p ≤ 15
     ∧ Py.contains "1234567890" p = false ∧ Py.contains "0000000000" p = false).
Proof.
  intros Hp. destruct (phone_provenance _ _ _ Hp) as [H|[H|H]].
  - left. split; [done|]. destruct H as (link & _ & Hl).
    unfold tel_body in Hl. destruct (Py.startswith _ _); [|by apply elem_of_nil in Hl].
    destruct (String.eqb _ "") eqn:E; simpl in Hl; [by apply elem_of_nil in Hl|].
    apply list_elem_of_singleton in Hl as ->. by apply String.eqb_neq in E.
  - right; left. split; [done|]. by apply (contact_element_digits soup).
  - right; right. split; [done|]. by apply (fallback_digits text).
Qed.

Lemma phone_digit_bounds_witness :
  "2125550199" ∈ extract_phone_numbers phone_paragraph "Phone: 212-555-0199"
  ∧ ((phone_from_tel phone_paragraph "2125550199" ∧ "2125550199" ≠ "")
     ∨ (phone_from_contact_element phone_paragraph "2125550199"
        ∧ 10 ≤ digit_count "2125550199" ≤ 15)
     ∨ (phone_from_fallback "Phone: 212-555-0199" "2125550199"
        ∧ 10 ≤ digit_count "2125550199" ≤ 15
        ∧ Py.contains "1234567890" "2125550199" = false
        ∧ Py.contains "0000000000" "2125550199" = false)).
Proof.
  assert ("2125550199" ∈ extract_phone_numbers phone_paragraph "Phone: 212-555-0199") as H.
  { apply (bool_decide_unpack _). vm_compute. exact I. }
  split; [exact H|]. exact (phone_digit_bounds _ _ _ H).
Defined.

(** ** The email extractor *)

(** Every email of the result comes out of one of the three loops. *)
Lemma email_provenance soup text e :
  e ∈ extract_emails soup text →
  email_from_mailto soup e ∨ email_from_text text e ∨ email_from_meta soup e.
Proof.
  unfold extract_emails. intros He.
  apply elem_of_for_add in He as [He|?]; [|by right; right].
  apply elem_of_for_add in He as [He|?]; [|by right; left].
  apply elem_of_for_add in He as [He|?]; [|by left].
  by apply not_elem_of_empty in He.
Qed.

Lemma from_text_not_denylisted text e : email_from_text text e → denylisted e = false.
Proof.
  intros (found & _ & He). unfold text_email_body in He.
  destruct (negb (String.eqb _ "")); [|by apply elem_of_nil in He].
  unfold denylisted.
  destruct (Py.any_in email_denylist _) eqn:E; [by apply elem_of_nil in He|].
  simpl in He. destruct (_ && _); [|by apply elem_of_nil in He].
  by apply list_elem_of_singleton in He as ->.
Qed.

(** C2, as stated, fails: addresses at [example.com] and [test.com]
    are returned when they come from a [mailto:] link or from a
    [meta] tag. *)
Lemma email_denylist_counterexample :
  get_text " " placeholder_mailto_page = ""
  ∧ "info@example.com" ∈ extract_emails placeholder_mailto_page ""
  ∧ denylisted "info@example.com" = true
  ∧ get_text " " placeholder_meta_page = ""
  ∧ "owner@test.com" ∈ extract_emails placeholder_meta_page ""
  ∧ denylisted "owner@test.com" = true.
Proof.
  repeat split; try reflexivity;
    apply (bool_decide_unpack _); vm_compute; exact I.
Qed.

(** C2 (amended): an address of the result that was found by the scan
    of the page text contains no entry of the deny-list; every other
    address of the result comes from a [mailto:] link or from the
    [content] of a [meta] tag, where the deny-list is not
    consulted. *)
Theorem email_denylist_text_only soup text e :
  e ∈ extract_emails soup text →
  email_from_mailto soup e ∨ email_from_meta soup e
  ∨ (email_from_text text e ∧ denylisted e = false).
Proof.
  intros He. destruct (email_provenance _ _ _ He) as [?|[?|?]]; auto.
  right; right. eauto using from_text_not_denylisted.
Qed.

Lemma email_denylist_text_only_witness :
  "hello@shop.io" ∈ extract_emails shop_page "Write to Hello@Shop.io today"
  ∧ (email_from_mailto shop_page "hello@shop.io" ∨ email_from_meta shop_page "hello@shop.io"
     ∨ (email_from_text "Write to Hello@Shop.io today" "hello@shop.io"
        ∧ denylisted "hello@shop.io" = false)).
Proof.
  assert ("hello@shop.io" ∈ extract_emails shop_page "Write to Hello@Shop.io today") as H.
  { apply (bool_decide_unpack _). vm_compute. exact I. }
  split; [exact H|]. exact (email_denylist_text_only _ _ _ H).
Defined.

(** The deny-list does its work on the text: a placeholder address
    in the page text is left out. *)
Example placeholder_in_text_dropped :
  extract_emails (soup [Text "mail info@example.com"]) "mail info@example.com" = ∅.
Proof. by vm_compute. Qed.

(** ** The address extractor *)

Lemma schema_address_spec els a :
  schema_address els = Some a →
  ∃ e, e ∈ els ∧ address_parts e ≠ [] ∧ a = Py.join ", " (address_parts e).
Proof.
  induction els as [|e els IH]; simpl; [done|].
  destruct (address_parts e) as [|p ps] eqn:E.
  - intros (e' & ? & ?)%IH. exists e'. split; [by right|done].
  - intros [= <-]. exists e. rewrite E. split; [by left|done].
Qed.

Lemma keyword_address_length els a :
  keyword_address els = Some a → String.length a ≤ 200.
Proof.
  induction els as [|e els IH]; simpl; [done|].
  repeat case_match; try done.
  intros [= <-]. apply length_py_take.
Qed.

(** C4, as stated, fails: an address taken from [PostalAddress]
    markup is returned at its full length. *)
Lemma address_length_counterexample :
  String.length
    (extract_physical_address long_postal_page (get_text " " long_postal_page)) = 201.
Proof. by vm_compute. Qed.

(** C4 (amended): the result is the texts of the [itemprop]
    descendants of a [PostalAddress] element that has some, joined
    by a comma and a space, whatever its length; otherwise it has at
    most 200 characters. *)
Theorem address_length soup text :
  (∃ e, e ∈ postal_elements soup ∧ address_parts e ≠ []
        ∧ extract_physical_address soup text = Py.join ", " (address_parts e))
  ∨ (schema_address (postal_elements soup) = None
     ∧ String.length (extract_physical_address soup text) ≤ 200).
Proof.
  unfold extract_physical_address.
  destruct (schema_address _) as [a|] eqn:E.
  - left. by apply schema_address_spec.
  - right. split; [done|].
    destruct (keyword_address _) as [a|] eqn:K.
    + by eapply keyword_address_length.
    + simpl; lia.
Qed.

(** Nothing found: the empty string. *)
Lemma address_empty soup text :
  schema_address (postal_elements soup) = None →
  keyword_address (find_all (named_in ["address"; "div"; "p"]) soup) = None →
  extract_physical_address soup text = "".
Proof. unfold extract_physical_address. by intros -> ->. Qed.

(** ** The paginated search *)

(** [keep_first] only ever appends. *)
Lemma keep_first_prefix acc l : ∃ t, foldl keep_first acc l = acc ++ t.
Proof.
  revert acc. induction l as [|x l IH]; intros acc; simpl.
  - exists []. by rewrite app_nil_r.
  - unfold keep_first at 2. case_decide; [apply IH|].
    destruct (IH (acc ++ [x])) as [t ->]. exists (x :: t). by rewrite <- app_assoc.
Qed.

Lemma keep_first_NoDup acc l : NoDup acc → NoDup (foldl keep_first acc l).
Proof.
  revert acc. induction l as [|x l IH]; intros acc Hacc; simpl; [done|].
  apply IH. unfold keep_first. case_decide; [done|].
  apply NoDup_app. split_and!; [done| |apply NoDup_singleton].
  intros y ? ->%list_elem_of_singleton. done.
Qed.

Lemma keep_first_subset acc l x :
  x ∈ foldl keep_first acc l → x ∈ acc ∨ x ∈ l.
Proof.
  revert acc. induction l as [|y l IH]; intros acc; simpl; [auto|].
  intros [H|H]%IH; [|by right; right].
  unfold keep_first in H. case_decide; [by left|].
  apply elem_of_app in H as [?|Hx]; [by left|].
  apply list_elem_of_singleton in Hx as ->. by right; left.
Qed.

(** Cutting the accumulator at [n] before going on changes nothing
    below [n]. *)
Lemma take_keep_first_take n acc l :
  take n (foldl keep_first (take n acc) l) = take n (foldl keep_first acc l).
Proof.
  destruct (decide (length acc ≤ n)) as [?|Hlong].
  - by rewrite (take_ge acc) by done.
  - destruct (keep_first_prefix (take n acc) l) as [t ->].
    destruct (keep_first_prefix acc l) as [t' ->].
    rewrite (take_app_le (take n acc)) by (rewrite length_take; lia).
    rewrite (take_app_le acc) by lia.
    by rewrite take_take, Nat.min_id.
Qed.

Section AddUnique.
Variable N : Z.
Let n := Z.to_nat N.

Lemma add_unique_page h x : page (add_unique N h x) = page h.
Proof. unfold add_unique. by case_match. Qed.
Lemma add_unique_pages_read h x : pages_read (add_unique N h x) = pages_read h.
Proof. unfold add_unique. by case_match. Qed.

Lemma foldl_add_unique_page h l : page (foldl (add_unique N) h l) = page h.
Proof.
  revert h. induction l as [|x l IH]; intros h; simpl; [done|].
  by rewrite IH, add_unique_page.
Qed.
Lemma foldl_add_unique_pages_read h l :
  pages_read (foldl (add_unique N) h l) = pages_read h.
Proof.
  revert h. induction l as [|x l IH]; intros h; simpl; [done|].
  by rewrite IH, add_unique_pages_read.
Qed.

Lemma add_unique_seen h x :
  seen h = list_to_set (urls h) →
  seen (add_unique N h x) = list_to_set (urls (add_unique N h x)).
Proof.
  intros Hs. unfold add_unique. case_match; [|done]. simpl.
  rewrite list_to_set_app_L, Hs. simpl. by rewrite union_empty_r_L.
Qed.

Lemma foldl_add_unique_seen h l :
  seen h = list_to_set (urls h) →
  seen (foldl (add_unique N) h l) = list_to_set (urls (foldl (add_unique N) h l)).
Proof.
  revert h. induction l as [|x l IH]; intros h Hs; simpl; [done|].
  by apply IH, add_unique_seen.
Qed.

Lemma foldl_add_unique_full h l :
  n ≤ length (urls h) → foldl (add_unique N) h l = h.
Proof.
  intros Hfull. induction l as [|x l IH]; simpl; [done|].
  unfold add_unique at 2.
  rewrite (bool_decide_eq_false_2 (_ < _)%Z) by lia.
  by rewrite andb_false_r.
Qed.

(** The loop of lines 151-155 keeps the first occurrences and stops
    at [max_results]. *)
Lemma foldl_add_unique_urls h l :
  seen h = list_to_set (urls h) →
  length (urls h) ≤ n →
  urls (foldl (add_unique N) h l) = take n (foldl keep_first (urls h) l).
Proof.
  revert h. induction l as [|x l IH]; intros h Hs Hlen; simpl.
  { by rewrite take_ge. }
  destruct (decide (length (urls h) = n)) as [Hfull|Hroom].
  - change (foldl (add_unique N) (add_unique N h x) l)
      with (foldl (add_unique N) h (x :: l)).
    rewrite foldl_add_unique_full by lia.
    destruct (keep_first_prefix (keep_first (urls h) x) l) as [t ->].
    unfold keep_first. case_decide.
    + by rewrite take_app_le, take_ge by lia.
    + by rewrite <- app_assoc, take_app_le, take_ge by lia.
  - rewrite IH.
    + f_equal. f_equal. unfold add_unique, keep_first.
      rewrite (bool_decide_eq_true_2 (_ < _)%Z) by lia.
      rewrite andb_true_r, Hs.
      case_bool_decide as Hx; case_decide as Hy; simpl; try done.
      * by rewrite elem_of_list_to_set in Hx.
      * by rewrite elem_of_list_to_set in Hx.
    + by apply add_unique_seen.
    + unfold add_unique. case_match; simpl; [|lia].
      rewrite length_app. simpl. lia.
Qed.
End AddUnique.

Lemma keep_first_fresh acc l :
  NoDup (acc ++ l) → foldl keep_first acc l = acc ++ l.
Proof.
  revert acc. induction l as [|x l IH]; intros acc Hnd; simpl.
  - by rewrite app_nil_r.
  - unfold keep_first at 2. case_decide as Hx.
    + apply NoDup_app in Hnd as (_ & Hdis & _).
      destruct (Hdis x Hx). by left.
    + rewrite IH; rewrite <- app_assoc; done.
Qed.

Lemma offered_snoc s ps p : offered s (ps ++ [p]) = offered s ps ++ page_links s p.
Proof. unfold offered. rewrite flat_map_app. simpl. by rewrite app_nil_r. Qed.

(** One round of the loop, spelled out. *)
Lemma harvest_loop_unfold fuel s N mp h :
  harvest_loop (S fuel) s N mp h =
    if bool_decide (Z.of_nat (length (urls h)) < N)%Z && bool_decide (page h ≤ mp)%Z
    then
      let lp := ss_pages s (page h) in
      if negb (lp_ready lp) then Some h
      else
        let h1 := foldl (add_unique N) h (result_links (lp_source lp)) in
        let h2 := {| urls := urls h1; seen := seen h1; page := page h1;
                     pages_read := pages_read h1 ++ [page h1] |} in
        if bool_decide (N ≤ Z.of_nat (length (urls h2)))%Z then Some h2
        else if bool_decide (page h2 < mp)%Z then
          if next_button_found lp
          then harvest_loop fuel s N mp
                 {| urls := urls h2; seen := seen h2; page := (page h2 + 1)%Z;
                    pages_read := pages_read h2 |}
          else Some h2
        else Some h2
    else Some h.
Proof. reflexivity. Qed.

Lemma harvest_round_inv s N h :
  harvest_inv s N h →
  let h1 := foldl (add_unique N) h (page_links s (page h)) in
  harvest_inv s N
    {| urls := urls h1; seen := seen h1; page := page h1;
       pages_read := pages_read h1 ++ [page h1] |}.
Proof.
  intros [Hs Hu] h1. split; simpl.
  - by apply foldl_add_unique_seen.
  - subst h1. rewrite foldl_add_unique_pages_read, foldl_add_unique_page.
    rewrite offered_snoc. unfold first_occurrences. rewrite foldl_app.
    rewrite foldl_add_unique_urls; [|done|].
    + rewrite Hu at 1. apply take_keep_first_take.
    + rewrite Hu, length_take. lia.
Qed.

(** The loop ends within [max_pages + 1 - page] rounds, keeps its
    invariant, never moves past [max_pages], and has read the pages
    from 1 up to the last one or the one before. *)
Lemma harvest_loop_spec s N mp fuel h :
  Z.to_nat (mp + 1 - page h) ≤ fuel →
  harvest_inv s N h →
  pages_read h = seqZ 1 (page h - 1) →
  (1 ≤ page h)%Z →
  ∃ h', harvest_loop fuel s N mp h = Some h'
        ∧ harvest_inv s N h'
        ∧ (page h ≤ page h' ≤ Z.max (page h) mp)%Z
        ∧ (pages_read h' = seqZ 1 (page h' - 1) ∨ pages_read h' = seqZ 1 (page h')).
Proof.
  revert h. induction fuel as [|fuel IH]; intros h Hfuel Hinv Hread Hpage.
  - exists h. split; [|split_and!; auto; lia].
    simpl. case_bool_decide; [|by rewrite andb_false_l].
    case_bool_decide; [lia|done].
  - rewrite harvest_loop_unfold.
    destruct (bool_decide (_ < N)%Z && _) eqn:Hcond; simpl;
      [|exists h; split_and!; auto; lia].
    apply andb_true_iff in Hcond as [HN%bool_decide_eq_true Hmp%bool_decide_eq_true].
    destruct (lp_ready _); simpl; [|exists h; split_and!; auto; lia].
    pose proof (harvest_round_inv s N h Hinv) as Hinv2.
    unfold page_links in Hinv2. simpl in Hinv2.
    set (h1 := foldl (add_unique N) h _) in *.
    assert (page h1 = page h) as Hp1 by apply foldl_add_unique_page.
    assert (pages_read h1 ++ [page h1] = seqZ 1 (page h)) as Hr1.
    { subst h1. rewrite foldl_add_unique_pages_read, foldl_add_unique_page, Hread.
      transitivity (seqZ 1 ((page h - 1) + 1)); [|f_equal; lia].
      rewrite seqZ_app by lia. f_equal.
      replace (1 + (page h - 1))%Z with (page h) by lia. done. }
    case_bool_decide.
    { eexists. split; [done|]. split_and!; simpl; auto; try lia.
      right. by rewrite Hr1, Hp1. }
    case_bool_decide; simpl.
    2:{ eexists. split; [done|]. split_and!; simpl; auto; try lia.
        right. by rewrite Hr1, Hp1. }
    destruct (next_button_found _).
    2:{ eexists. split; [done|]. split_and!; simpl; auto; try lia.
        right. by rewrite Hr1, Hp1. }
    edestruct (IH {| urls := urls h1; seen := seen h1; page := (page h1 + 1)%Z;
                     pages_read := pages_read h1 ++ [page h1] |})
      as (h' & -> & Hinv' & Hpg & Hrd); simpl.
    + lia.
    + exact Hinv2.
    + rewrite Hr1, Hp1. f_equal. lia.
    + lia.
    + simpl in *. exists h'. split; [done|]. split_and!; auto; lia.
Qed.

Lemma harvest_start_inv s N : harvest_inv s N harvest_start.
Proof. split; [done|]. by destruct (Z.to_nat N). Qed.

(** The run always ends, for every [max_results]. *)
Lemma search_google_run_spec drv query N :
  ∃ h, search_google_run drv query N = Some h
       ∧ urls h = take (Z.to_nat N)
                    (first_occurrences (session_offered drv query (pages_read h)))
       ∧ (1 ≤ page h ≤ Z.max 1 (max_pages_for N))%Z
       ∧ (pages_read h = seqZ 1 (page h - 1) ∨ pages_read h = seqZ 1 (page h)).
Proof.
  unfold search_google_run. destruct drv as [d|].
  2:{ exists harvest_start. split_and!; simpl; auto; try lia. by destruct (Z.to_nat N). }
  destruct (ss_submitted (google d query)).
  2:{ exists harvest_start. split_and!; simpl; auto; try lia. by destruct (Z.to_nat N). }
  destruct (harvest_loop_spec (google d query) N (max_pages_for N)
              (Z.to_nat (max_pages_for N)) harvest_start)
    as (h & Hl & [_ Hu] & Hp & Hr); simpl; try done; try lia.
  - apply harvest_start_inv.
  - exists h. split; [exact Hl|]. split_and!; auto; simpl in Hp; lia.
Qed.

Lemma max_pages_for_ceil N :
  (10 * (max_pages_for N - 1) < N ≤ 10 * max_pages_for N)%Z.
Proof.
  unfold max_pages_for.
  pose proof (Z.div_mod (N + 9) 10 ltac:(lia)).
  pose proof (Z.mod_pos_bound (N + 9) 10 ltac:(lia)). lia.
Qed.

Lemma elem_of_seqZ_1 p k : p ∈ seqZ 1 k → (1 ≤ p ≤ k)%Z.
Proof. rewrite elem_of_seqZ. lia. Qed.

Lemma two_pages_run drv query l1 l2 :
  two_pages drv query l1 l2 →
  length (first_occurrences l1) = 10 →
  length (first_occurrences (l1 ++ l2)) = 15 →
  ∃ h, search_google_run drv query 15 = Some h
       ∧ urls h = first_occurrences (l1 ++ l2)
       ∧ page h = 2%Z ∧ pages_read h = [1%Z; 2%Z].
Proof.
  intros (d & -> & Hsub & Hr1 & Hnext & Hr2 & Hl1 & Hl2) Hlen1 Hlen2.
  unfold search_google_run. cbv zeta. fold harvest_start. rewrite Hsub.
  change (Z.to_nat (max_pages_for 15)) with 2.
  change (max_pages_for 15) with 2%Z.
  set (s := google d query) in *.
  (* the first page *)
  rewrite harvest_loop_unfold. cbv zeta.
  change (urls harvest_start) with (@nil string). change (page harvest_start) with 1%Z.
  rewrite bool_decide_eq_true_2 by (simpl; lia).
  rewrite bool_decide_eq_true_2 by lia.
  rewrite Hr1. simpl andb. simpl negb. cbv iota.
  pose proof (harvest_round_inv s 15 harvest_start (harvest_start_inv s 15)) as Hinv1.
  simpl in Hinv1. unfold page_links in *. simpl in Hinv1.
  set (h1 := foldl (add_unique 15) harvest_start _) in *.
  assert (page h1 = 1%Z) as Hp1 by apply foldl_add_unique_page.
  assert (pages_read h1 = []) as Hd1 by apply foldl_add_unique_pages_read.
  rewrite Hp1, Hd1 in *. simpl in Hinv1. cbn [urls page pages_read seen app].
  assert (urls h1 = first_occurrences l1) as Hu1.
  { pose proof Hinv1 as [_ Hx]. simpl in Hx. rewrite Hx. unfold offered, page_links. simpl.
    rewrite app_nil_r, Hl1. apply take_ge. lia. }
  rewrite (bool_decide_eq_false_2 (15 ≤ _)%Z) by (rewrite Hu1; lia).
  rewrite (bool_decide_eq_true_2 (1 < 2)%Z) by lia.
  rewrite Hnext.
  (* the second page *)
  rewrite harvest_loop_unfold. cbv zeta. cbn [urls page pages_read seen].
  rewrite (bool_decide_eq_true_2 (_ < 15)%Z) by (rewrite Hu1; lia).
  rewrite (bool_decide_eq_true_2 (1 + 1 ≤ 2)%Z) by lia.
  change (1 + 1)%Z with 2%Z.
  rewrite Hr2. simpl andb. simpl negb. cbv iota.
  pose proof (harvest_round_inv s 15
                {| urls := urls h1; seen := seen h1; page := 2;
                   pages_read := [1%Z] |} Hinv1) as Hinv2.
  simpl in Hinv2. unfold page_links in Hinv2.
  set (h2 := foldl (add_unique 15)
               {| urls := urls h1; seen := seen h1; page := 2;
                  pages_read := [1%Z] |} _) in *.
  assert (page h2 = 2%Z) as Hp2 by apply foldl_add_unique_page.
  assert (pages_read h2 = [1%Z]) as Hd2 by apply foldl_add_unique_pages_read.
  rewrite Hp2, Hd2 in *. simpl in Hinv2. cbn [urls page pages_read seen app].
  assert (urls h2 = first_occurrences (l1 ++ l2)) as Hu2.
  { pose proof Hinv2 as [_ Hx]. simpl in Hx. rewrite Hx. unfold offered, page_links. simpl.
    rewrite app_nil_r, Hl1, Hl2. apply take_ge. lia. }
  rewrite (bool_decide_eq_true_2 (15 ≤ _)%Z) by (rewrite Hu2; lia).
  eexists. split; [done|]. by simpl.
Qed.

(** C3: for a target of at least one result the search returns; its
    list has no duplicates and at most [max_results] entries; it is
    made of the first occurrences, in order, of what the pages read
    have offered; [max_pages] is the number of pages of ten needed
    for [max_results]; the loop never moves past page [max_pages] and
    reads no page beyond the one it is on.  With a target of 15, a
    first page that brings 10 new results and a second that brings 5
    more, the 15 results are returned and the loop ends on page 2. *)
Theorem search_google_harvest drv query N :
  (1 ≤ N)%Z →
  ∃ h, search_google_run drv query N = Some h
       ∧ search_google drv query N = Some (urls h)
       ∧ NoDup (urls h)
       ∧ (Z.of_nat (length (urls h)) ≤ N)%Z
       ∧ urls h = take (Z.to_nat N)
                    (first_occurrences (session_offered drv query (pages_read h)))
       ∧ (10 * (max_pages_for N - 1) < N ≤ 10 * max_pages_for N)%Z
       ∧ (1 ≤ page h ≤ max_pages_for N)%Z
       ∧ (∀ p, p ∈ pages_read h → (1 ≤ p ≤ page h)%Z)
       ∧ (∀ l1 l2,
            N = 15%Z →
            two_pages drv query l1 l2 →
            length (first_occurrences l1) = 10 →
            length (first_occurrences (l1 ++ l2)) = 15 →
            urls h = first_occurrences (l1 ++ l2)
            ∧ length (urls h) = 15
            ∧ page h = 2%Z ∧ pages_read h = [1%Z; 2%Z]).
Proof.
  intros HN.
  destruct (search_google_run_spec drv query N) as (h & Hrun & Hu & Hp & Hr).
  pose proof (max_pages_for_ceil N) as Hceil.
  exists h.
  split; [exact Hrun|].
  split; [unfold search_google; by rewrite Hrun|].
  split.
  { rewrite Hu. eapply sublist_NoDup; [|apply sublist_take].
    apply keep_first_NoDup, NoDup_nil_2. }
  split; [rewrite Hu, length_take; lia|].
  split; [exact Hu|].
  split; [exact Hceil|].
  split; [lia|].
  split.
  { intros p Hin. destruct Hr as [Hr|Hr]; rewrite Hr in Hin;
      apply elem_of_seqZ_1 in Hin; lia. }
  intros l1 l2 -> Hsc Hlen1 Hlen2.
  destruct (two_pages_run _ _ _ _ Hsc Hlen1 Hlen2) as (h' & Hrun' & ? & ? & ?).
  rewrite Hrun in Hrun'. injection Hrun' as <-.
  split_and!; try done. congruence.
Qed.

Lemma search_google_harvest_witness :
  (1 ≤ 15)%Z
  ∧ search_google (Some two_page_driver) "site:myshopify.com" 15
    = Some (first_ten ++ next_five).
Proof.
  split; [lia|].
  destruct (search_google_harvest (Some two_page_driver) "site:myshopify.com" 15
              ltac:(lia))
    as (h & _ & Hs & _ & _ & _ & _ & _ & _ & Hscen).
  rewrite Hs. f_equal.
  assert (two_pages (Some two_page_driver) "site:myshopify.com" first_ten next_five)
    as Hpages by (exists two_page_driver; repeat split; reflexivity).
  destruct (Hscen first_ten next_five eq_refl Hpages eq_refl eq_refl) as [-> _].
  reflexivity.
Defined.

(** The same run, by evaluation. *)
Example two_page_run :
  search_google_run (Some two_page_driver) "site:myshopify.com" 15
  = Some {| urls := first_ten ++ next_five;
            seen := list_to_set (first_ten ++ next_five);
            page := 2; pages_read := [1%Z; 2%Z] |}.
Proof.
  vm_compute. reflexivity.
Qed.

(** ** What the search returns is external *)

Lemma block_link_external result u :
  u ∈ block_link result →
  Py.startswith u "http" = true ∧ Py.contains "google.com" u = false.
Proof.
  unfold block_link. destruct (find _ result) as [link|]; [|by intros ?%elem_of_nil].
  destruct (Py.startswith _ "http") eqn:Hp; [|by intros ?%elem_of_nil].
  destruct (Py.any_in _ _) eqn:Ha; simpl; [by intros ?%elem_of_nil|].
  intros ->%list_elem_of_singleton. split; [done|].
  unfold Py.any_in in Ha. simpl in Ha. by apply orb_false_elim in Ha as [? _].
Qed.

Lemma area_links_external soup u :
  u ∈ area_links soup →
  Py.startswith u "http" = true ∧ Py.contains "google.com" u = false.
Proof.
  unfold area_links. destruct (find _ soup) as [search_div|]; [|by intros ?%elem_of_nil].
  intros (link & _ & Hu)%list_elem_of_In%in_flat_map.
  destruct (Py.startswith _ "http") eqn:Hp; [|done].
  destruct (Py.contains "google.com" _) eqn:Hc; [done|].
  simpl in Hu. destruct Hu as [<-|[]]. done.
Qed.

Lemma result_links_external soup u :
  u ∈ result_links soup →
  Py.startswith u "http" = true ∧ Py.contains "google.com" u = false.
Proof.
  unfold result_links.
  destruct (flat_map block_link (result_blocks soup)) as [|x l] eqn:E.
  - apply area_links_external.
  - rewrite <- E. intros (r & _ & Hu)%list_elem_of_In%in_flat_map.
    eapply block_link_external. by apply list_elem_of_In.
Qed.

(** C10: the search returns, and every URL it returns begins with
    [http] and does not contain [google.com]; so a URL that contains
    [google.com] anywhere is never returned. *)
Theorem search_google_external drv query N :
  ∃ l, search_google drv query N = Some l
       ∧ (∀ u, u ∈ l →
               Py.startswith u "http" = true ∧ Py.contains "google.com" u = false)
       ∧ (∀ u, Py.contains "google.com" u = true → u ∉ l).
Proof.
  destruct (search_google_run_spec drv query N) as (h & Hrun & Hu & _).
  assert (∀ u, u ∈ urls h →
               Py.startswith u "http" = true ∧ Py.contains "google.com" u = false)
    as Hext.
  { intros u Hin. rewrite Hu in Hin.
    apply subseteq_take in Hin.
    apply keep_first_subset in Hin as [Hin|Hin]; [by apply elem_of_nil in Hin|].
    destruct drv as [d|]; simpl in Hin; [|by apply elem_of_nil in Hin].
    apply list_elem_of_In, in_flat_map in Hin as (p & _ & Hin).
    eapply result_links_external. by apply list_elem_of_In. }
  exists (urls h). split; [unfold search_google; by rewrite Hrun|].
  split; [exact Hext|].
  intros u Hc Hin. destruct (Hext u Hin) as [_ Hn]. congruence.
Qed.

(** A shop whose URL mentions [google.com] is passed over. *)
Example mention_of_google_dropped :
  result_links (listing [ "https://shop.example/pages/google.com-reviews";
                          "https://other.example/" ])
  = [ "https://other.example/" ].
Proof. vm_compute. reflexivity. Qed.

(** ** Social links *)

Section ForEach.
Context {A B : Type}.

Lemma for_each_total (body : B → A → option B) (items : list A) (acc : B) :
  (∀ b x, x ∈ items → is_Some (body b x)) → is_Some (for_each body items acc).
Proof.
  revert acc. induction items as [|x items IH]; intros acc Hall; simpl; [by eexists|].
  destruct (Hall acc x) as [acc' ->]; [by left|]. simpl.
  apply IH. intros b y Hy. apply Hall. by right.
Qed.
End ForEach.

Section SocialFacts.

Variable urljoin : string -> string -> option string.

(** The one fact about [urljoin] that matters here: what it returns
    for a reference that names a platform is not the empty string. *)
Hypothesis urljoin_nonempty :
  ∀ base ref u, mentions_platform ref = true → urljoin base ref = Some u → u ≠ "".

Lemma value_of_insert d k k' v :
  value_of (<[k := v]> d) k' = if decide (k = k') then v else value_of d k'.
Proof. unfold value_of. rewrite lookup_insert. by case_decide. Qed.

Lemma platform_step_other base link sl sl' pd k :
  platform_step urljoin base link sl pd = Some sl' →
  pd.1 ≠ k → value_of sl' k = value_of sl k.
Proof.
  unfold platform_step. intros Hstep Hne.
  destruct (String.eqb _ ""); [|by injection Hstep as <-].
  destruct (existsb _ _); [|by injection Hstep as <-].
  destruct (urljoin _ _) as [u|]; [|done]. injection Hstep as <-.
  rewrite value_of_insert. by case_decide.
Qed.

Lemma platform_step_same base link sl sl' k domains :
  platform_step urljoin base link sl (k, domains) = Some sl' →
  settled urljoin base (value_of sl k)
    (if link_matches domains link then Some link else None) (value_of sl' k).
Proof.
  unfold platform_step, link_matches, settled. simpl. intros Hstep.
  destruct (String.eqb (value_of sl k) "") eqn:E; [|by injection Hstep as <-].
  apply String.eqb_eq in E.
  destruct (existsb _ domains); [|by injection Hstep as <-].
  destruct (urljoin _ _) as [u|]; [|done]. injection Hstep as <-.
  rewrite value_of_insert. by case_decide.
Qed.

Lemma platforms_other base link table sl sl' k :
  for_each (platform_step urljoin base link) table sl = Some sl' →
  k ∉ table.*1 → value_of sl' k = value_of sl k.
Proof.
  revert sl. induction table as [|pd table IH]; intros sl Hrun Hk; simpl in Hrun.
  { by injection Hrun as <-. }
  rewrite fmap_cons, not_elem_of_cons in Hk. destruct Hk as [? ?].
  destruct (platform_step _ _ _ sl pd) as [sl1|] eqn:Hstep; [|done]. simpl in Hrun.
  rewrite (IH sl1) by done. by eapply platform_step_other.
Qed.

Lemma platforms_same base link table sl sl' k domains :
  for_each (platform_step urljoin base link) table sl = Some sl' →
  NoDup table.*1 → (k, domains) ∈ table →
  settled urljoin base (value_of sl k)
    (if link_matches domains link then Some link else None) (value_of sl' k).
Proof.
  revert sl. induction table as [|pd table IH]; intros sl Hrun Hnd Hin; simpl in Hrun.
  { by apply elem_of_nil in Hin. }
  rewrite fmap_cons in Hnd. apply NoDup_cons in Hnd as [Hfresh Hnd].
  destruct (platform_step _ _ _ sl pd) as [sl1|] eqn:Hstep; [|done]. simpl in Hrun.
  apply elem_of_cons in Hin as [<-|Hin].
  - simpl in Hfresh. rewrite (platforms_other _ _ _ _ _ k Hrun Hfresh).
    by apply platform_step_same.
  - rewrite <- (platform_step_other _ _ _ _ _ k Hstep); [by apply IH|].
    intros Heq. apply Hfresh. rewrite Heq.
    apply (list_elem_of_fmap_2 fst _ _ Hin).
Qed.

Lemma table_keys_NoDup : NoDup social_media_domains.*1.
Proof. apply (bool_decide_unpack _). by vm_compute. Qed.

Lemma matching_mentions k domains link :
  (k, domains) ∈ social_media_domains →
  link_matches domains link = true →
  mentions_platform (attr_value link "href") = true.
Proof.
  intros Hin Hm. unfold mentions_platform. apply existsb_exists.
  exists (k, domains). split; [by apply list_elem_of_In|exact Hm].
Qed.

(** The loop over the links, for one platform. *)
Lemma links_fold base ls sl sl' k domains :
  (k, domains) ∈ social_media_domains →
  for_each (link_step urljoin base) ls sl = Some sl' →
  settled urljoin base (value_of sl k) (List.find (link_matches domains) ls) (value_of sl' k).
Proof.
  intros Hin. revert sl. induction ls as [|link ls IH]; intros sl Hrun; simpl in Hrun.
  { injection Hrun as <-. unfold settled. simpl.
    by destruct (String.eqb _ _) eqn:E; [apply String.eqb_eq in E|]. }
  destruct (link_step _ _ sl link) as [sl1|] eqn:Hstep; [|done]. simpl in Hrun.
  pose proof (platforms_same _ _ _ _ _ _ domains Hstep table_keys_NoDup Hin) as H1.
  pose proof (IH _ Hrun) as H2.
  unfold settled in *. simpl.
  destruct (String.eqb (value_of sl k) "") eqn:E.
  - destruct (link_matches domains link) eqn:Hm.
    + assert (value_of sl1 k ≠ "") as Hne
        by (eapply urljoin_nonempty; [by eapply matching_mentions|exact H1]).
      apply String.eqb_neq in Hne. rewrite Hne in H2. by rewrite H2.
    + by rewrite H1 in H2.
  - rewrite H1, E in H2. exact H2.
Qed.

Lemma empty_social_value k : value_of (empty_social) k = "".
Proof.
  unfold value_of. destruct (empty_social !! k) as [v|] eqn:E; [|done].
  apply elem_of_list_to_map_2, list_elem_of_fmap in E as (pd & [= _ ->] & _). done.
Qed.

Lemma platform_step_total base link sl pd :
  is_Some (urljoin base (attr_value link "href")) →
  is_Some (platform_step urljoin base link sl pd).
Proof.
  intros [u Hu]. unfold platform_step. rewrite Hu. simpl.
  repeat case_match; by eexists.
Qed.

(** C8: for every platform of the table, when [extract_social_links]
    returns, the value kept is the first link in document order whose
    [href] matches the platform, joined to the base URL, and
    whatever matches later leaves it as it is; without a matching
    link the value is empty.  It does return when [urljoin] does on
    every link of the page. *)
Theorem social_first_match soup base platform domains :
  (platform, domains) ∈ social_media_domains →
  (∀ sl, extract_social_links urljoin soup base = Some sl →
         match first_match domains soup with
         | Some link =>
             urljoin base (attr_value link "href") = Some (value_of sl platform)
         | None => value_of sl platform = ""
         end)
  ∧ (∀ sl before link after,
       extract_social_links urljoin soup base = Some sl →
       links soup = before ++ link :: after →
       Forall (fun l => link_matches domains l = false) before →
       link_matches domains link = true →
       urljoin base (attr_value link "href") = Some (value_of sl platform))
  ∧ ((∀ link, link ∈ links soup → is_Some (urljoin base (attr_value link "href"))) →
     is_Some (extract_social_links urljoin soup base)).
Proof.
  intros Hin.
  assert (∀ sl, extract_social_links urljoin soup base = Some sl →
            match first_match domains soup with
            | Some link =>
                urljoin base (attr_value link "href") = Some (value_of sl platform)
            | None => value_of sl platform = ""
            end) as Hfirst.
  { intros sl Hrun. unfold extract_social_links in Hrun.
    pose proof (links_fold _ _ _ _ _ _ Hin Hrun) as H.
    unfold settled in H. by rewrite empty_social_value in H. }
  split; [exact Hfirst|]. split.
  - intros sl before link after Hrun Hsplit Hbefore Hlink.
    specialize (Hfirst sl Hrun). unfold first_match in Hfirst.
    rewrite Hsplit in Hfirst. clear Hsplit.
    induction Hbefore as [|l before Hl _ IH]; simpl in Hfirst.
    + by rewrite Hlink in Hfirst.
    + rewrite Hl in Hfirst. by apply IH.
  - intros Hall. unfold extract_social_links.
    apply for_each_total. intros sl link Hl. unfold link_step.
    apply for_each_total. intros sl1 pd _.
    by apply platform_step_total, Hall.
Qed.

End SocialFacts.

Lemma simple_urljoin_nonempty base ref u :
  mentions_platform ref = true → simple_urljoin base ref = Some u → u ≠ "".
Proof.
  unfold simple_urljoin. intros Hm Hu.
  assert (ref ≠ "") as Href by (intros ->; by vm_compute in Hm).
  destruct (Py.contains "[" ref); [done|].
  apply (inj Some) in Hu. subst u.
  destruct (Py.startswith ref "http"); [done|].
  destruct base, ref; done.
Qed.

Lemma social_first_match_witness :
  ∃ sl, extract_social_links simple_urljoin two_facebook_page "https://shop.example"
        = Some sl
        ∧ value_of sl "facebook" = "https://www.facebook.com/first".
Proof.
  assert (∃ sl, extract_social_links simple_urljoin two_facebook_page
                  "https://shop.example" = Some sl) as [sl Hsl]
    by (eexists; vm_compute; reflexivity).
  exists sl. split; [exact Hsl|].
  assert (("facebook", ["facebook.com"; "fb.com"]) ∈ social_media_domains) as Hin
    by apply list_elem_of_here.
  destruct (social_first_match simple_urljoin simple_urljoin_nonempty
              two_facebook_page "https://shop.example" _ _ Hin) as [Hfirst _].
  specialize (Hfirst sl Hsl).
  change (first_match ["facebook.com"; "fb.com"] two_facebook_page)
    with (Some (Elem "a" {[ "href" := "https://www.facebook.com/first" ]} []))
    in Hfirst.
  cbv beta iota in Hfirst.
  change (simple_urljoin _ _) with (Some "https://www.facebook.com/first") in Hfirst.
  by injection Hfirst as <-.
Defined.

Example two_facebook_links :
  (fun sl => value_of sl <$> ["facebook"; "instagram"; "twitter_x"])
    <$> extract_social_links simple_urljoin two_facebook_page "https://shop.example"
  = Some [ "https://www.facebook.com/first";
           "https://shop.example/pages/instagram.com/shop"; "" ].
Proof. vm_compute. reflexivity. Qed.

(** A reference [urljoin] gives up on stops the extraction. *)
Example malformed_link_raises :
  extract_social_links simple_urljoin
    (soup [ Elem "a" {[ "href" := "http://[facebook.com" ]} [] ])
    "https://shop.example"
  = None.
Proof. vm_compute. reflexivity. Qed.

(** ** The crawl of one site *)

Section CrawlFacts.

Variable urljoin : string -> string -> option string.
Variable clock_limit : QArith_base.Q.

Lemma wants_contact_page_spec cp current st :
  wants_contact_page cp current st = true ↔ fallback_due cp current st.
Proof.
  unfold wants_contact_page, fallback_due.
  rewrite !andb_true_iff, orb_true_iff, !negb_true_iff, !String.eqb_neq, !Nat.eqb_eq.
  tauto.
Qed.

(** The browser is sent to the contact page as soon as the inner
    [try] is entered, and nowhere else from there, whatever raises. *)
Lemma contact_try_history v cp w :
  history (contact_try urljoin v cp w).1 = history w ++ [cp].
Proof.
  unfold contact_try, driver_get, call, mbind, M_bind, bind, ret, raise,
    get_found, put_found.
  destruct (raises v Get); simpl; [done|].
  destruct (raises v Wait); simpl; [done|].
  destruct (raises v Source); simpl; [done|].
  destruct (raises v Emails); simpl; [done|].
  destruct (raises v Phones); simpl; [done|].
  destruct (raises v Social); simpl; [done|].
  destruct (extract_social_links urljoin (page_source v) cp); simpl; [|done].
  destruct (String.eqb (address (vars w)) ""); simpl; [|done].
  by destruct (raises v Address).
Qed.

(** What the inner [try] makes of the local variables does not
    depend on where the browser has been. *)
Lemma contact_try_vars v cp w :
  vars (contact_try urljoin v cp w).1 = (contact_pass urljoin v cp (vars w)).1
  ∧ (contact_try urljoin v cp w).2 = (contact_pass urljoin v cp (vars w)).2.
Proof.
  unfold contact_pass, contact_try, driver_get, call, mbind, M_bind, bind, ret, raise,
    get_found, put_found.
  destruct (raises v Get); simpl; [done|].
  destruct (raises v Wait); simpl; [done|].
  destruct (raises v Source); simpl; [done|].
  destruct (raises v Emails); simpl; [done|].
  destruct (raises v Phones); simpl; [done|].
  destruct (raises v Social); simpl; [done|].
  destruct (extract_social_links urljoin (page_source v) cp); simpl; [|done].
  destruct (String.eqb (address (vars w)) ""); simpl; [|done].
  by destruct (raises v Address).
Qed.

(** The main page: the browser is sent to [url], and the local
    variables are assigned when nothing raises. *)
Lemma main_try_spec v url w :
  main_try urljoin v url w =
    match main_pass urljoin v with
    | Some (st, cp) => ({| vars := st; history := history w ++ [url] |}, Some cp)
    | None => ({| vars := vars w; history := history w ++ [url] |}, None)
    end.
Proof.
  unfold main_try, driver_get, call, mbind, M_bind, bind, ret, raise, put_found.
  destruct (raises v Get) eqn:Hget.
  - unfold main_pass. cbn [existsb main_steps]. by rewrite Hget.
  - by destruct (main_pass urljoin v) as [[st cp]|].
Qed.

Lemma scrape_site_run_main d url st cp :
  main_pass urljoin (fetch d url) = Some (st, cp) →
  scrape_site_run urljoin (Some d) url =
    if wants_contact_page cp (current_url (fetch d url)) st
    then {| result :=
              fill_result (current_url (fetch d url)) cp
                (contact_pass urljoin (fetch d cp) cp st).1;
            gets := [url; cp] |}
    else {| result := fill_result (current_url (fetch d url)) cp st;
            gets := [url] |}.
Proof.
  intros Hmain. unfold scrape_site_run. cbv zeta.
  rewrite main_try_spec, Hmain. cbn [vars history app].
  destruct (wants_contact_page _ _ _); [|done].
  by rewrite contact_try_history, (proj1 (contact_try_vars _ _ _)).
Qed.

Lemma scrape_site_run_failed d url :
  main_pass urljoin (fetch d url) = None →
  scrape_site_run urljoin (Some d) url
  = {| result := Result.initial url; gets := [url] |}.
Proof.
  intros Hmain. unfold scrape_site_run. cbv zeta. by rewrite main_try_spec, Hmain.
Qed.

(** C5: the history of the browser, which [driver.get] alone
    writes, has a second URL exactly when the driver is there, the
    main page went through, a contact page was found on it, that page
    is not the one the browser is on, and the main page gave no email
    or no phone number; the second URL is then the contact page
    found, whatever that visit raises; and the browser is never sent
    to a third URL. *)
Theorem contact_visit_iff drv url :
  ((∃ u, gets (scrape_site_run urljoin drv url) = [url; u])
   ↔ (∃ d st cp, drv = Some d
                 ∧ main_pass urljoin (fetch d url) = Some (st, cp)
                 ∧ fallback_due cp (current_url (fetch d url)) st))
  ∧ (∀ u, gets (scrape_site_run urljoin drv url) = [url; u] →
          ∃ d st, drv = Some d ∧ main_pass urljoin (fetch d url) = Some (st, u))
  ∧ (gets (scrape_site_run urljoin drv url) = []
     ∨ gets (scrape_site_run urljoin drv url) = [url]
     ∨ ∃ u, gets (scrape_site_run urljoin drv url) = [url; u]).
Proof.
  destruct drv as [d|].
  2:{ simpl. split_and!.
      - split; [by intros [? ?]|by intros (? & ? & ? & ? & _)].
      - done.
      - by left. }
  destruct (main_pass urljoin (fetch d url)) as [[st cp]|] eqn:Hmain.
  2:{ rewrite (scrape_site_run_failed _ _ Hmain). simpl. split_and!.
      - split; [by intros [? ?]|]. intros (d' & ? & ? & [= <-] & ? & _). congruence.
      - done.
      - by right; left. }
  rewrite (scrape_site_run_main _ _ _ _ Hmain).
  destruct (wants_contact_page _ _ _) eqn:Hw; simpl.
  - apply wants_contact_page_spec in Hw. split_and!.
    + split; [|by eauto]. intros _. exists d, st, cp. eauto.
    + intros u [= <-]. eauto.
    + right; right. eauto.
  - split_and!.
    + split; [by intros [? ?]|]. intros (d' & st' & cp' & [= <-] & Hm & Hdue).
      rewrite Hmain in Hm. injection Hm as <- <-.
      apply wants_contact_page_spec in Hdue. congruence.
    + done.
    + by right; left.
Qed.

(** *** What the contact page can and cannot change *)

Lemma keeps_refl st : keeps st st.
Proof. by split_and!. Qed.

Lemma merge_social_keeps contact_social soc k :
  value_of soc k ≠ "" → value_of (merge_social contact_social soc) k = value_of soc k.
Proof.
  unfold merge_social. generalize (map_to_list contact_social). intros l.
  revert soc. induction l as [|kv l IH]; intros soc Hk; simpl; [done|].
  destruct (negb _ && String.eqb (value_of soc kv.1) "") eqn:E; [|by apply IH].
  apply andb_true_iff in E as [_ E%String.eqb_eq].
  assert (value_of (<[kv.1 := kv.2]> soc) k = value_of soc k) as Hsame.
  { unfold value_of. rewrite lookup_insert_ne; [done|].
    intros Heq. by rewrite Heq in E. }
  rewrite IH; rewrite Hsame; done.
Qed.

(** However far the contact-page pass gets, the local variables it
    leaves keep what the main page gave. *)
Lemma contact_pass_keeps v cp st : keeps st (contact_pass urljoin v cp st).1.
Proof.
  unfold contact_pass, contact_try, driver_get, call, mbind, M_bind, bind, ret, raise,
    get_found, put_found.
  destruct (raises v Get); simpl; [apply keeps_refl|].
  destruct (raises v Wait); simpl; [apply keeps_refl|].
  destruct (raises v Source); simpl; [apply keeps_refl|].
  destruct (raises v Emails); simpl; [apply keeps_refl|].
  destruct (raises v Phones); simpl.
  { split_and!; simpl; try done. set_solver. }
  destruct (raises v Social); simpl.
  { split_and!; simpl; try done; set_solver. }
  destruct (extract_social_links urljoin (page_source v) cp) as [contact_social|]; simpl.
  2:{ split_and!; simpl; try done; set_solver. }
  destruct (String.eqb (address st) "") eqn:Ha; simpl.
  - apply String.eqb_eq in Ha.
    destruct (raises v Address); simpl;
      (split_and!; simpl; [set_solver|set_solver| |done]);
      intros k Hk; by apply merge_social_keeps.
  - split_and!; simpl; [set_solver|set_solver| |done].
    intros k Hk; by apply merge_social_keeps.
Qed.



(** *** The address of the merged record *)

Lemma contact_pass_address v cp st :
  address (contact_pass urljoin v cp st).1 =
    if String.eqb (address st) "" then
      match (contact_pass urljoin v cp st).2 with
      | Some _ => page_address v
      | None => ""
      end
    else address st.
Proof.
  unfold contact_pass, contact_try, driver_get, call, mbind, M_bind, bind, ret, raise,
    get_found, put_found,
    page_address.
  destruct (String.eqb (address st) "") eqn:Ha;
    [apply String.eqb_eq in Ha|];
    destruct (raises v Get); simpl; try done;
    destruct (raises v Wait); simpl; try done;
    destruct (raises v Source); simpl; try done;
    destruct (raises v Emails); simpl; try done;
    destruct (raises v Phones); simpl; try done;
    destruct (raises v Social); simpl; try done;
    destruct (extract_social_links urljoin (page_source v) cp); simpl; try done;
    rewrite ?Ha; simpl; try done;
    by destruct (raises v Address).
Qed.

(** C7: when the main page went through, a non-empty address of
    the main page is the address of the record, whatever the contact
    page holds; the record has another address only when the main
    page gave none and the contact page was visited, and it is then
    the address of the contact page; and when the main page gave
    none and the contact page is visited without an exception, the
    record has the address of the contact page. *)
Theorem address_merge d url st cp :
  main_pass urljoin (fetch d url) = Some (st, cp) →
  let r := scrape_site urljoin (Some d) url in
  (address st ≠ "" → Result.physical_address r = address st)
  ∧ (Result.physical_address r ≠ address st →
     address st = "" ∧ fallback_due cp (current_url (fetch d url)) st
     ∧ Result.physical_address r = page_address (fetch d cp))
  ∧ (address st = "" → fallback_due cp (current_url (fetch d url)) st →
     (contact_pass urljoin (fetch d cp) cp st).2 = Some tt →
     Result.physical_address r = page_address (fetch d cp)).
Proof.
  intros Hmain r. subst r.
  unfold scrape_site. rewrite (scrape_site_run_main _ _ _ _ Hmain).
  destruct (wants_contact_page _ _ _) eqn:Hw;
    cbn [result fill_result Result.physical_address].
  - apply wants_contact_page_spec in Hw.
    rewrite contact_pass_address.
    destruct (String.eqb (address st) "") eqn:Ha;
      [apply String.eqb_eq in Ha|apply String.eqb_neq in Ha].
    + destruct (contact_pass urljoin (fetch d cp) cp st).2 as [[]|] eqn:Hr;
        split_and!; try done; congruence.
    + split_and!; done.
  - split_and!; try done. intros _ Hdue%wants_contact_page_spec. congruence.
Qed.

(** *** The crawl of a list *)

Lemma scrape_site_failed drv url :
  visit_fails urljoin drv url → scrape_site urljoin drv url = Result.initial url.
Proof.
  destruct drv as [d|]; simpl; [|done].
  intros Hf. unfold scrape_site. by rewrite scrape_site_run_failed.
Qed.

Lemma scrape_loop_unfold drv delay url rest results :
  scrape_loop urljoin clock_limit drv delay (url :: rest) results =
    match rest with
    | [] => Some (results ++ [scrape_site urljoin drv url])
    | _ :: _ =>
        if sleep_accepts clock_limit delay
        then scrape_loop urljoin clock_limit drv delay rest
               (results ++ [scrape_site urljoin drv url])
        else None
    end.
Proof. by destruct rest. Qed.

(** With a pause that goes through, or no pause to make, the loop
    appends the record of every URL in turn. *)
Lemma scrape_loop_accepted drv delay urls results :
  sleep_accepts clock_limit delay = true ∨ length urls ≤ 1 →
  scrape_loop urljoin clock_limit drv delay urls results
  = Some (results ++ (scrape_site urljoin drv <$> urls)).
Proof.
  revert results. induction urls as [|url rest IH]; intros results Hok.
  { simpl. by rewrite app_nil_r. }
  rewrite scrape_loop_unfold. destruct rest as [|url' rest]; [done|].
  destruct Hok as [Hok|Hone]; [|simpl in Hone; lia].
  rewrite Hok, IH by by left. by rewrite <- app_assoc.
Qed.

(** With two URLs or more and a pause that raises, the loop is left
    after the first site. *)
Lemma scrape_loop_refused drv delay urls results :
  sleep_accepts clock_limit delay = false → 2 ≤ length urls →
  scrape_loop urljoin clock_limit drv delay urls results = None.
Proof.
  intros Hno Hlen. destruct urls as [|url [|url' rest]]; simpl in Hlen; try lia.
  rewrite scrape_loop_unfold. by rewrite Hno.
Qed.

(** C6, as stated, fails: with two URLs and a negative [delay] the
    pause after the first site raises, and no list is returned; with
    one URL the same [delay] does no harm. *)
Lemma scrape_multiple_sites_counterexample :
  sleep_accepts unix_clock (Finite (QArith_base.Qmake (-1) 1)) = false
  ∧ scrape_multiple_sites simple_urljoin unix_clock (Some Shop.browser)
      ["https://gone.example"; Shop.home] (Finite (QArith_base.Qmake (-1) 1))
    = None
  ∧ scrape_multiple_sites simple_urljoin unix_clock (Some Shop.browser)
      ["https://gone.example"] (Finite (QArith_base.Qmake (-1) 1))
    = Some [Result.initial "https://gone.example"].
Proof. split_and!; vm_compute; reflexivity. Qed.

(** C6 (amended): for a [delay] that [time.sleep] accepts, and for
    any [delay] when there is at most one URL, the list returned has
    one record per URL given, in the order given, each the record
    [scrape_site] returns for that URL; the record of a URL whose
    visit fails is empty except for [url], and the records of the
    URLs after it are there all the same. *)
Theorem scrape_multiple_sites_records drv urls delay :
  sleep_accepts clock_limit delay = true ∨ length urls ≤ 1 →
  ∃ results,
    scrape_multiple_sites urljoin clock_limit drv urls delay = Some results
    ∧ results = scrape_site urljoin drv <$> urls
    ∧ length results = length urls
    ∧ (∀ i url, urls !! i = Some url →
                results !! i = Some (scrape_site urljoin drv url))
    ∧ (∀ i url, urls !! i = Some url → visit_fails urljoin drv url →
                results !! i = Some (Result.initial url)).
Proof.
  intros Hok. exists (scrape_site urljoin drv <$> urls). split_and!.
  - unfold scrape_multiple_sites. by rewrite scrape_loop_accepted.
  - done.
  - by rewrite length_fmap.
  - intros i url Hi. by rewrite list_lookup_fmap, Hi.
  - intros i url Hi Hf. rewrite list_lookup_fmap, Hi. simpl.
    by rewrite scrape_site_failed.
Qed.

End CrawlFacts.

(** ** The shop, crawled *)

Example shop_record :
  scrape_site_run simple_urljoin (Some Shop.browser) Shop.home
  = {| result :=
         {| Result.url := Shop.home;
            Result.emails := "sales@shop.example";
            Result.phone_numbers := "+1-555-201-1234";
            Result.facebook := "https://facebook.com/shop";
            Result.instagram := ""; Result.twitter_x := ""; Result.tiktok := "";
            Result.youtube := ""; Result.linkedin := "";
            Result.physical_address := "Our address: 1 Main Street, Springfield";
            Result.contact_page_url := "https://shop.example/pages/contact" |};
       gets := [Shop.home; "https://shop.example/pages/contact"] |}.
Proof. vm_compute. reflexivity. Qed.

Lemma shop_main_pass :
  ∃ st, main_pass simple_urljoin (fetch Shop.browser Shop.home)
        = Some (st, "https://shop.example/pages/contact")
        ∧ address st = "Our address: 1 Main Street, Springfield"
        ∧ value_of (social st) "facebook" = "https://facebook.com/shop".
Proof. eexists. split; [vm_compute; reflexivity|]. split; vm_compute; reflexivity. Defined.


Lemma address_merge_witness :
  Result.physical_address (scrape_site simple_urljoin (Some Shop.browser) Shop.home)
  = "Our address: 1 Main Street, Springfield".
Proof.
  destruct shop_main_pass as (st & Hmain & Haddr & _).
  destruct (address_merge simple_urljoin _ _ _ _ Hmain) as (Hkeep & _).
  etrans; [apply Hkeep|exact Haddr]. rewrite Haddr. discriminate.
Defined.

Lemma scrape_multiple_sites_records_witness :
  ∃ results,
    scrape_multiple_sites simple_urljoin unix_clock (Some Shop.browser)
      ["https://gone.example"; Shop.home] (Finite (QArith_base.Qmake 2 1))
    = Some results
    ∧ results = [ Result.initial "https://gone.example";
                  scrape_site simple_urljoin (Some Shop.browser) Shop.home ].
Proof.
  destruct (scrape_multiple_sites_records simple_urljoin unix_clock (Some Shop.browser)
              ["https://gone.example"; Shop.home] (Finite (QArith_base.Qmake 2 1)))
    as (results & Hrun & Hmap & _).
  { left. reflexivity. }
  exists results. split; [exact Hrun|].
  etrans; [exact Hmap|]. reflexivity.
Defined.

(** * Further properties *)

(** ** Characters and strings *)

Lemma lower_char_idemp c : Py.lower_char (Py.lower_char c) = Py.lower_char c.
Proof. by destruct c as [[] [] [] [] [] [] [] []]. Qed.

Lemma isspace_lower_char c : Py.isspace (Py.lower_char c) = Py.isspace c.
Proof. by destruct c as [[] [] [] [] [] [] [] []]. Qed.

Lemma lower_idemp s : Py.lower (Py.lower s) = Py.lower s.
Proof. induction s as [|c s IH]; simpl; [done|]. by rewrite lower_char_idemp, IH. Qed.

Lemma lower_lstrip s : Py.lower (Py.lstrip s) = Py.lstrip (Py.lower s).
Proof.
  induction s as [|c s IH]; simpl; [done|].
  rewrite isspace_lower_char. by destruct (Py.isspace c).
Qed.

Lemma lower_rstrip s : Py.lower (Py.rstrip s) = Py.rstrip (Py.lower s).
Proof.
  induction s as [|c s IH]; simpl; [done|].
  rewrite <- IH, isspace_lower_char.
  destruct (Py.rstrip s); simpl; [by destruct (Py.isspace c)|done].
Qed.

Lemma lower_strip s : Py.lower (Py.strip s) = Py.strip (Py.lower s).
Proof. unfold Py.strip. by rewrite lower_rstrip, lower_lstrip. Qed.

Lemma at_lower_char d : Ascii.eqb (Py.lower_char d) "@" = Ascii.eqb d "@".
Proof. by destruct d as [[] [] [] [] [] [] [] []]. Qed.

Lemma count_at_lower s : Py.count "@" (Py.lower s) = Py.count "@" s.
Proof. induction s as [|c s IH]; simpl; [done|]. by rewrite at_lower_char, IH. Qed.

Lemma contains_char c s :
  Py.contains (String c "") s = true ↔ 1 ≤ Py.count c s.
Proof.
  induction s as [|d s IH]; simpl.
  - split; [done|lia].
  - destruct (ascii_dec c d) as [->|Hne].
    + rewrite Ascii.eqb_refl. split; [lia|]. intros _. by destruct s.
    + assert (Ascii.eqb d c = false) as -> by (apply Ascii.eqb_neq; congruence).
      simpl. by rewrite IH.
Qed.

Lemma count_lstrip c s : Py.isspace c = false → Py.count c (Py.lstrip s) = Py.count c s.
Proof.
  intros Hc. induction s as [|d s IH]; simpl; [done|].
  destruct (Py.isspace d) eqn:Hd; [|done].
  rewrite IH. destruct (Ascii.eqb d c) eqn:E; [|done].
  apply Ascii.eqb_eq in E. congruence.
Qed.

Lemma count_rstrip c s : Py.isspace c = false → Py.count c (Py.rstrip s) = Py.count c s.
Proof.
  intros Hc. induction s as [|d s IH]; simpl; [done|].
  destruct (Py.rstrip s) as [|e r] eqn:Hr.
  - simpl in IH. rewrite <- IH.
    destruct (Py.isspace d) eqn:Hd; simpl.
    + destruct (Ascii.eqb d c) eqn:E; [|done].
      apply Ascii.eqb_eq in E. congruence.
    + lia.
  - simpl. simpl in IH. by rewrite IH.
Qed.

Lemma count_strip c s : Py.isspace c = false → Py.count c (Py.strip s) = Py.count c s.
Proof. intros Hc. unfold Py.strip. by rewrite count_rstrip, count_lstrip. Qed.

(** ** Emails are lower-case and hold an at sign *)

(** X1: every address [extract_emails] returns is in lower case,
    whichever of the three loops found it. *)
Theorem emails_lower_case soup text e :
  e ∈ extract_emails soup text → Py.lower e = e.
Proof.
  intros He. destruct (email_provenance _ _ _ He) as [H|[H|H]].
  - destruct H as (link & _ & Hl). unfold mailto_body in Hl.
    repeat case_match; try by apply elem_of_nil in Hl.
    apply list_elem_of_singleton in Hl as ->. apply lower_idemp.
  - destruct H as (found & _ & Hf). unfold text_email_body in Hf.
    repeat case_match; try by apply elem_of_nil in Hf.
    apply list_elem_of_singleton in Hf as ->.
    by rewrite lower_strip, lower_idemp.
  - destruct H as (meta & _ & Hm). unfold meta_body in Hm.
    case_match; [|by apply elem_of_nil in Hm].
    apply list_elem_of_In, in_flat_map in Hm as (found & _ & Hm).
    case_match; [|done]. destruct Hm as [<-|[]].
    by rewrite lower_strip, lower_idemp.
Qed.

(** X2: every address [extract_emails] returns holds an at sign:
    at least one when it comes from a [mailto:] link, exactly one when
    it comes from the text or from a [meta] tag. *)
Theorem emails_hold_at_sign soup text e :
  e ∈ extract_emails soup text →
  (email_from_mailto soup e ∧ 1 ≤ Py.count "@" e)
  ∨ ((email_from_text text e ∨ email_from_meta soup e) ∧ Py.count "@" e = 1).
Proof.
  intros He. destruct (email_provenance _ _ _ He) as [H|[H|H]].
  - left. split; [done|]. destruct H as (link & _ & Hl). unfold mailto_body in Hl.
    case_match; [|by apply elem_of_nil in Hl].
    destruct (Py.contains "@" _) eqn:Hat; simpl in Hl; [|by apply elem_of_nil in Hl].
    case_match; [|by apply elem_of_nil in Hl].
    apply list_elem_of_singleton in Hl as ->.
    rewrite count_at_lower. by apply contains_char.
  - right. split; [by left|]. destruct H as (found & _ & Hf).
    unfold text_email_body in Hf.
    case_match; [|by apply elem_of_nil in Hf].
    destruct (Py.count "@" _ =? 1) eqn:Hc; simpl in Hf; [|by apply elem_of_nil in Hf].
    case_match; [|by apply elem_of_nil in Hf].
    apply list_elem_of_singleton in Hf as ->. by apply Nat.eqb_eq.
  - right. split; [by right|]. destruct H as (meta & _ & Hm). unfold meta_body in Hm.
    case_match; [|by apply elem_of_nil in Hm].
    apply list_elem_of_In, in_flat_map in Hm as (found & _ & Hm).
    destruct (Py.count "@" _ =? 1) eqn:Hc; [|done].
    destruct Hm as [<-|[]]. by apply Nat.eqb_eq.
Qed.

(** ** What [replace], [split] and the class filter do *)

Lemma replace_go_skip old new t rest :
  Py.replace_go old new (String.length t) (t +:+ rest) = Py.replace_go old new 0 rest.
Proof.
  induction t as [|c t IH]; simpl; [done|]. exact IH.
Qed.

Lemma append_nil_r s : s +:+ "" = s.
Proof.
  induction s as [|c s IH]; [done|].
  change (String c s +:+ "") with (String c (s +:+ "")). by rewrite IH.
Qed.

Lemma prefix_app s rest : String.prefix s (s +:+ rest) = true.
Proof.
  induction s as [|c s IH]; simpl; [by destruct rest|].
  by destruct (ascii_dec c c).
Qed.

(** An occurrence at the head of the string is replaced, and the
    scan goes on after it. *)
Lemma replace_head c old rest new :
  Py.replace (String c old +:+ rest) (String c old) new
  = new +:+ Py.replace rest (String c old) new.
Proof.
  unfold Py.replace.
  change (String c old +:+ rest) with (String c (old +:+ rest)).
  cbn [Py.replace_go].
  change (String c (old +:+ rest)) with (String c old +:+ rest).
  rewrite prefix_app. f_equal.
  change (String.length (String c old) - 1) with (String.length old - 0).
  rewrite Nat.sub_0_r. apply replace_go_skip.
Qed.

Lemma replace_go_cons old new c s :
  Py.replace_go old new 0 (String c s) =
    if String.prefix old (String c s)
    then new +:+ Py.replace_go old new (String.length old - 1) s
    else String c (Py.replace_go old new 0 s).
Proof. reflexivity. Qed.

Lemma contains_cons p c s :
  Py.contains p (String c s) = String.prefix p (String c s) || Py.contains p s.
Proof. reflexivity. Qed.

(** A string without an occurrence is left as it is. *)
Lemma replace_absent s old new :
  Py.contains old s = false → Py.replace s old new = s.
Proof.
  unfold Py.replace. induction s as [|c s IH]; [done|].
  rewrite contains_cons, replace_go_cons.
  intros [-> Hc]%orb_false_elim. f_equal. by apply IH.
Qed.

Lemma split_hd_plain sep a :
  Py.count sep a = 0 → hd "" (Py.split sep a) = a.
Proof.
  induction a as [|c a IH]; simpl; [done|].
  destruct (Ascii.eqb c sep); [done|]. simpl. intros Hc.
  specialize (IH Hc). destruct (Py.split sep a); simpl in *; by subst.
Qed.

Lemma split_hd_cut sep a q :
  Py.count sep a = 0 → hd "" (Py.split sep (a +:+ String sep q)) = a.
Proof.
  induction a as [|c a IH]; simpl.
  - by rewrite Ascii.eqb_refl.
  - destruct (Ascii.eqb c sep); [done|]. simpl. intros Hc.
    specialize (IH Hc).
    change (String.append a (String sep q)) with (a +:+ String sep q).
    destruct (Py.split sep (a +:+ String sep q)); simpl in *; by subst.
Qed.

Lemma all_chars_keep (f g : ascii → bool) s :
  (∀ c, g c = true → f c = true) → all_chars f (Py.keep_chars g s) = true.
Proof.
  intros Hfg. induction s as [|c s IH]; simpl; [done|].
  destruct (g c) eqn:Hg; [|done]. simpl. by rewrite (Hfg c Hg), IH.
Qed.

(** ** Links that name a contact are taken as they are *)

(** X3: a [mailto:] link whose address holds an at sign and a dot
    gives that address, in lower case, with the scheme and anything
    from a question mark on removed; nothing the later loops do
    takes it out again. *)
Theorem mailto_link_extracted soup text link addr suffix :
  link ∈ links soup →
  attr_value link "href" = "mailto:" +:+ addr +:+ suffix →
  suffix = "" ∨ (∃ q, suffix = String "?" q) →
  Py.contains "mailto:" (addr +:+ suffix) = false →
  Py.count "?" addr = 0 →
  Py.contains "@" (Py.strip addr) = true →
  Py.contains "." (Py.strip addr) = true →
  Py.lower (Py.strip addr) ∈ extract_emails soup text.
Proof.
  intros Hlink Hhref Hsuffix Hclean Hq Hat Hdot.
  unfold extract_emails. do 2 apply for_add_mono.
  apply elem_of_for_add. right. exists link. split; [done|].
  unfold mailto_body. rewrite Hhref.
  assert (Py.startswith ("mailto:" +:+ addr +:+ suffix) "mailto:" = true) as ->
    by apply prefix_app.
  rewrite (replace_head "m" "ailto:"), (replace_absent _ _ _ Hclean).
  change ("" +:+ addr +:+ suffix) with (addr +:+ suffix).
  assert (hd "" (Py.split "?" (addr +:+ suffix)) = addr) as ->.
  { destruct Hsuffix as [->|[q ->]].
    - rewrite append_nil_r. by apply split_hd_plain.
    - by apply split_hd_cut. }
  rewrite Hat, Hdot. simpl. by apply list_elem_of_singleton.
Qed.

(** X4: a [tel:] link gives what is left of its number when the
    scheme, the white space around it and every character other than
    a digit, [+], a parenthesis, white space, a dot or a dash are
    taken away, provided something is left; the number is returned
    whatever its length and whatever the page text holds. *)
Theorem tel_link_extracted soup text link number :
  link ∈ links soup →
  attr_value link "href" = "tel:" +:+ number →
  Py.contains "tel:" number = false →
  Re.sub_cls true Patterns.phone_chars (Py.strip number) ≠ "" →
  Re.sub_cls true Patterns.phone_chars (Py.strip number) ∈ extract_phone_numbers soup text
  ∧ all_chars phone_char (Re.sub_cls true Patterns.phone_chars (Py.strip number)) = true.
Proof.
  intros Hlink Hhref Hclean Hne. split.
  - assert (Re.sub_cls true Patterns.phone_chars (Py.strip number)
            ∈ phones_before_text soup) as Hin.
    { unfold phones_before_text. apply for_add_mono.
      apply elem_of_for_add. right. exists link. split; [done|].
      unfold tel_body. rewrite Hhref.
      assert (Py.startswith ("tel:" +:+ number) "tel:" = true) as ->
        by apply prefix_app.
      rewrite (replace_head "t" "el:"), (replace_absent _ _ _ Hclean).
      change ("" +:+ number) with number.
      apply String.eqb_neq in Hne. rewrite Hne. simpl.
      by apply list_elem_of_singleton. }
    unfold extract_phone_numbers. fold (phones_before_text soup).
    case_bool_decide; [by apply for_add_mono|done].
  - unfold Re.sub_cls. apply all_chars_keep. intros c Hc.
    unfold phone_char, Re.cls_match in *. simpl in *.
    by destruct (Re.in_range "0" "9" c || _).
Qed.

(** X5: once the [tel:] links and the contact elements have given two
    numbers or more, the page text is not looked at: the result is
    the same for every text.  In every case those numbers are part
    of the result. *)
Theorem text_scanned_only_below_two soup text :
  phones_before_text soup ⊆ extract_phone_numbers soup text
  ∧ (2 ≤ size (phones_before_text soup) →
     extract_phone_numbers soup text = phones_before_text soup)
  ∧ (size (phones_before_text soup) < 2 →
     ∀ p, p ∈ extract_phone_numbers soup text ↔
          p ∈ phones_before_text soup ∨ phone_from_fallback text p).
Proof.
  unfold extract_phone_numbers. fold (phones_before_text soup).
  case_bool_decide as Hsz; split_and!.
  - apply for_add_mono.
  - lia.
  - intros _ p. apply elem_of_for_add.
  - done.
  - done.
  - lia.
Qed.

(** ** Addresses *)

Lemma length_py_take_min n s : String.length (Py.take n s) = n `min` String.length s.
Proof.
  unfold Py.take. revert s.
  induction n as [|n IH]; intros [|c s]; simpl; try done.
  by rewrite IH.
Qed.

Lemma schema_address_first before e after :
  Forall (fun x => address_parts x = []) before →
  address_parts e ≠ [] →
  schema_address (before ++ e :: after) = Some (Py.join ", " (address_parts e)).
Proof.
  intros Hbefore He. induction Hbefore as [|x before Hx _ IH]; simpl.
  - by destruct (address_parts e).
  - by rewrite Hx.
Qed.

(** X6: the first [PostalAddress] element, in document order, that
    has [itemprop] descendants gives the address: their texts joined
    by a comma and a space.  No keyword-bearing paragraph changes
    that. *)
Theorem structured_address_first soup text before e after :
  postal_elements soup = before ++ e :: after →
  Forall (fun x => address_parts x = []) before →
  address_parts e ≠ [] →
  extract_physical_address soup text = Py.join ", " (address_parts e).
Proof.
  intros Hsplit Hbefore He. unfold extract_physical_address.
  by rewrite Hsplit, (schema_address_first _ _ _ Hbefore He).
Qed.

Lemma keyword_address_cons x els :
  keyword_address (x :: els) =
    if mentions_address x then
      if (20 <? String.length (get_text "" x)) && (String.length (get_text "" x) <? 500)
      then Some (Py.take 200 (get_text "" x))
      else keyword_address els
    else keyword_address els.
Proof. reflexivity. Qed.

Lemma keyword_pick_skip x els a :
  passed_over x → keyword_pick els a → keyword_pick (x :: els) a.
Proof.
  intros Hx (b & e & a' & -> & Hb & Hrest).
  exists (x :: b), e, a'. split; [done|]. split; [|exact Hrest]. by constructor.
Qed.

Lemma keyword_address_spec els a :
  keyword_address els = Some a → keyword_pick els a.
Proof.
  induction els as [|x els IH]; [done|].
  rewrite keyword_address_cons.
  destruct (mentions_address x) eqn:Hm;
    [|intros Hk; apply keyword_pick_skip; [by left|by apply IH]].
  destruct (20 <? _) eqn:H1; cbn [andb];
    [|apply Nat.ltb_ge in H1; intros Hk;
      apply keyword_pick_skip; [by right; left|by apply IH]].
  destruct (_ <? 500) eqn:H2;
    [|apply Nat.ltb_ge in H2; intros Hk;
      apply keyword_pick_skip; [by right; right|by apply IH]].
  intros [= <-]. exists [], x, els.
  apply Nat.ltb_lt in H1, H2. split_and!; auto.
Qed.

(** X7: without structured markup the address is empty or is cut
    from the text of the first [address], [div] or [p] element that
    names an address keyword and has more than 20 and fewer than 500
    characters: its first 200 characters, so between 21 and 200. *)
Theorem keyword_address_bounds soup text :
  schema_address (postal_elements soup) = None →
  extract_physical_address soup text = ""
  ∨ (keyword_pick (find_all (named_in ["address"; "div"; "p"]) soup)
       (extract_physical_address soup text)
     ∧ 21 ≤ String.length (extract_physical_address soup text) ≤ 200).
Proof.
  intros Hnone. unfold extract_physical_address. rewrite Hnone.
  destruct (keyword_address _) as [a|] eqn:Hk; [|by left].
  right. apply keyword_address_spec in Hk. split; [done|].
  destruct Hk as (b & e & a' & Hs & Hb & Hm & Hlen & ->).
  rewrite length_py_take_min; lia.
Qed.

(** ** The joined columns *)

Lemma sorted_spec S :
  StronglySorted String.le (Py.sorted S) ∧ NoDup (Py.sorted S)
  ∧ ∀ x, x ∈ Py.sorted S ↔ x ∈ S.
Proof.
  unfold Py.sorted. split_and!.
  - apply StronglySorted_merge_sort; apply _.
  - rewrite merge_sort_Permutation. apply NoDup_elements.
  - intros x. by rewrite merge_sort_Permutation, elem_of_elements.
Qed.

(** ** More on the crawl *)

Section MoreCrawlFacts.

Variable urljoin : string -> string -> option string.

(** The contact page adds nothing but its own emails and phone
    numbers, wherever it raises. *)
Lemma contact_pass_adds v cp st :
  emails (contact_pass urljoin v cp st).1
    ⊆ emails st ∪ extract_emails (page_source v) (get_text " " (page_source v))
  ∧ phones (contact_pass urljoin v cp st).1
    ⊆ phones st ∪ extract_phone_numbers (page_source v) (get_text " " (page_source v)).
Proof.
  unfold contact_pass, contact_try, driver_get, call, mbind, M_bind, bind, ret, raise,
    get_found, put_found.
  destruct (raises v Get); simpl; [set_solver|].
  destruct (raises v Wait); simpl; [set_solver|].
  destruct (raises v Source); simpl; [set_solver|].
  destruct (raises v Emails); simpl; [set_solver|].
  destruct (raises v Phones); simpl; [set_solver|].
  destruct (raises v Social); simpl; [set_solver|].
  destruct (extract_social_links urljoin (page_source v) cp); simpl; [|set_solver].
  destruct (String.eqb (address st) ""); simpl; [|set_solver].
  destruct (raises v Address); simpl; set_solver.
Qed.

(** X8: when the main page went through, the [emails] and the
    [phone_numbers] columns of the record are the comma-joined forms
    of two lists that are in ascending order and without duplicates,
    and that hold what was found: every address of the main page, and
    besides these only addresses of the contact page, and only when
    that page was due a visit; the same for the phone numbers. *)
Theorem joined_columns_sorted d url st cp :
  main_pass urljoin (fetch d url) = Some (st, cp) →
  let r := scrape_site urljoin (Some d) url in
  let contact := page_source (fetch d cp) in
  ∃ es ps,
    Result.emails r = Py.join ", " es
    ∧ Result.phone_numbers r = Py.join ", " ps
    ∧ StronglySorted String.le es ∧ NoDup es
    ∧ StronglySorted String.le ps ∧ NoDup ps
    ∧ (∀ e, e ∈ emails st → e ∈ es)
    ∧ (∀ e, e ∈ es →
            e ∈ emails st
            ∨ (fallback_due cp (current_url (fetch d url)) st
               ∧ e ∈ extract_emails contact (get_text " " contact)))
    ∧ (∀ p, p ∈ phones st → p ∈ ps)
    ∧ (∀ p, p ∈ ps →
            p ∈ phones st
            ∨ (fallback_due cp (current_url (fetch d url)) st
               ∧ p ∈ extract_phone_numbers contact (get_text " " contact))).
Proof.
  intros Hmain r contact. subst r contact.
  unfold scrape_site. rewrite (scrape_site_run_main _ _ _ _ _ Hmain).
  destruct (wants_contact_page _ _ _) eqn:Hw; cbn [result].
  - apply (wants_contact_page_spec urljoin) in Hw.
    set (st' := (contact_pass urljoin (fetch d cp) cp st).1).
    destruct (contact_pass_keeps urljoin (fetch d cp) cp st) as (Hke & Hkp & _).
    destruct (contact_pass_adds (fetch d cp) cp st) as [Hae Hap].
    fold st' in Hke, Hkp, Hae, Hap.
    destruct (sorted_spec (emails st')) as (? & ? & Hes).
    destruct (sorted_spec (phones st')) as (? & ? & Hps).
    exists (Py.sorted (emails st')), (Py.sorted (phones st')).
    split_and!; try done.
    + intros e He. apply Hes. by apply Hke.
    + intros e [He|He]%Hes%Hae%elem_of_union; [by left|by right].
    + intros p Hp. apply Hps. by apply Hkp.
    + intros p [Hp|Hp]%Hps%Hap%elem_of_union; [by left|by right].
  - destruct (sorted_spec (emails st)) as (? & ? & Hes).
    destruct (sorted_spec (phones st)) as (? & ? & Hps).
    exists (Py.sorted (emails st)), (Py.sorted (phones st)).
    split_and!; try done.
    + intros e He. by apply Hes.
    + intros e He%Hes. by left.
    + intros p Hp. by apply Hps.
    + intros p Hp%Hps. by left.
Qed.

Lemma first_contact_link_spec base ls :
  first_contact_link urljoin base ls =
    match List.find contact_link ls with
    | Some link => urljoin base (attr_value link "href")
    | None => Some ""
    end.
Proof.
  induction ls as [|link ls IH]; [done|].
  change (first_contact_link urljoin base (link :: ls))
    with (if contact_link link then urljoin base (attr_value link "href")
          else first_contact_link urljoin base ls).
  cbn [List.find]. by destruct (contact_link link).
Qed.

(** X9: the contact page is the first link in document order whose
    [href] or text names a contact word, in any case of letters,
    joined to the base URL; links after it do not matter, and without
    such a link the result is the empty string. *)
Theorem contact_page_first_link soup base :
  (∀ before link after,
     links soup = before ++ link :: after →
     Forall (fun l => contact_link l = false) before →
     contact_link link = true →
     find_contact_page urljoin soup base = urljoin base (attr_value link "href"))
  ∧ (Forall (fun l => contact_link l = false) (links soup) →
     find_contact_page urljoin soup base = Some "").
Proof.
  unfold find_contact_page. rewrite first_contact_link_spec. split.
  - intros before link after -> Hbefore Hlink.
    induction Hbefore as [|l before Hl _ IH]; cbn [List.find app].
    + by rewrite Hlink.
    + by rewrite Hl.
  - intros Hnone. induction Hnone as [|l ls Hl _ IH]; cbn [List.find]; [done|].
    by rewrite Hl.
Qed.

(** *** The dictionary of social links *)

Lemma for_each_inv {A B} (P : B → Prop) (body : B → A → option B) items acc acc' :
  (∀ b x b', x ∈ items → P b → body b x = Some b' → P b') →
  P acc → for_each body items acc = Some acc' → P acc'.
Proof.
  revert acc. induction items as [|x items IH]; intros acc Hstep Hacc Hrun;
    simpl in Hrun.
  { by injection Hrun as <-. }
  destruct (body acc x) as [b|] eqn:Hb; [|done]. simpl in Hrun.
  apply (IH b); [|by eapply Hstep; [left| |]|done].
  intros b0 y b' Hy. apply Hstep. by right.
Qed.

Lemma platform_step_shape base ls link sl sl' pd :
  link ∈ ls → pd ∈ social_media_domains →
  social_shape urljoin base ls sl →
  platform_step urljoin base link sl pd = Some sl' →
  social_shape urljoin base ls sl'.
Proof.
  intros Hlink Hpd [Hdom Hval]. unfold platform_step.
  destruct (String.eqb _ ""); [|by intros [= <-]].
  destruct (existsb _ _); [|by intros [= <-]].
  destruct (urljoin _ _) as [u|] eqn:Hu; [|done]. intros [= <-]. split.
  - rewrite dom_insert_L, Hdom.
    assert (pd.1 ∈ dom empty_social) as Hin;
      [|by apply subseteq_union_1_L, singleton_subseteq_l].
    unfold empty_social. rewrite dom_list_to_map_L, <- list_fmap_compose.
    apply elem_of_list_to_set, list_elem_of_fmap. by exists pd.
  - intros k v. rewrite lookup_insert. case_decide.
    + intros [= <-]. right. eauto.
    + apply Hval.
Qed.

(** X10: the dictionary [extract_social_links] returns has the six
    platform names as its keys, no more and no fewer, and each value
    is either empty or the result of joining the [href] of some link
    of the page to the base URL. *)
Theorem social_links_shape soup base sl :
  extract_social_links urljoin soup base = Some sl →
  dom sl = list_to_set ["facebook"; "instagram"; "twitter_x"; "tiktok";
                        "youtube"; "linkedin"]
  ∧ ∀ k v, sl !! k = Some v →
           v = "" ∨ ∃ link, link ∈ links soup
                            ∧ urljoin base (attr_value link "href") = Some v.
Proof.
  intros Hrun.
  assert (social_shape urljoin base (links soup) sl) as [Hdom Hval].
  { unfold extract_social_links in Hrun.
    apply (for_each_inv (social_shape urljoin base (links soup)) _ _ _ _) in Hrun; [done| |].
    - intros b link b' Hlink Hb Hstep. unfold link_step in Hstep.
      apply (for_each_inv (social_shape urljoin base (links soup)) _ _ _ _) in Hstep;
        [done| |done].
      intros b1 pd b1' Hpd Hb1. by apply platform_step_shape.
    - split; [done|]. intros k v Hk. left.
      apply elem_of_list_to_map_2, list_elem_of_fmap in Hk as (pd & [= _ ->] & _).
      done. }
  split; [|exact Hval]. rewrite Hdom. apply (bool_decide_unpack _). by vm_compute.
Qed.

(** *** The merge of a contact page that goes through *)

Lemma merge_fold_spec (l : list (string * string)) soc k :
  NoDup l.*1 →
  value_of
    (foldl (fun soc kv =>
              if negb (String.eqb kv.2 "") && String.eqb (value_of soc kv.1) ""
              then <[kv.1 := kv.2]> soc else soc) soc l) k
  = if String.eqb (value_of soc k) ""
    then default "" ((list_to_map l : gmap string string) !! k)
    else value_of soc k.
Proof.
  revert soc. induction l as [|[k' v'] l IH]; intros soc Hnd.
  { simpl. rewrite lookup_empty. simpl. by destruct (String.eqb_spec (value_of soc k) ""). }
  rewrite fmap_cons in Hnd. apply NoDup_cons in Hnd as [Hk' Hnd].
  cbn [foldl fst snd list_to_map foldr] in *.
  rewrite IH by done. clear IH.
  destruct (decide (k = k')) as [->|Hne].
  - assert ((list_to_map l : gmap string string) !! k' = None) as Hl
      by by apply not_elem_of_list_to_map_1.
    rewrite Hl, lookup_insert_eq. cbn [default].
    destruct (String.eqb_spec v' ""); cbn [negb andb].
    + subst v'. by destruct (String.eqb_spec (value_of soc k') "").
    + destruct (String.eqb_spec (value_of soc k') "") as [He|He].
      * unfold value_of at 1 2. rewrite lookup_insert_eq. cbn [default]. unfold id.
        by destruct (String.eqb_spec v' "").
      * by destruct (String.eqb_spec (value_of soc k') "").
  - rewrite lookup_insert_ne by done.
    destruct (negb _ && _); [|done].
    assert (value_of (<[k':=v']> soc) k = value_of soc k) as ->; [|done].
    unfold value_of. by rewrite lookup_insert_ne.
Qed.

Lemma merge_social_spec cs soc k :
  value_of (merge_social cs soc) k
  = if String.eqb (value_of soc k) "" then value_of cs k else value_of soc k.
Proof.
  unfold merge_social. rewrite merge_fold_spec by apply NoDup_fst_map_to_list.
  by rewrite list_to_map_to_list.
Qed.

Lemma contact_pass_clean v cp st :
  (∀ s, raises v s = false) →
  is_Some (extract_social_links urljoin (page_source v) cp) →
  (contact_pass urljoin v cp st).2 = Some tt.
Proof.
  intros Hcalm [cs Hcs].
  unfold contact_pass, contact_try, driver_get, call, mbind, M_bind, bind, ret, raise,
    get_found, put_found.
  rewrite (Hcalm Get); simpl. rewrite (Hcalm Wait); simpl.
  rewrite (Hcalm Source); simpl. rewrite (Hcalm Emails); simpl.
  rewrite (Hcalm Phones); simpl. rewrite (Hcalm Social), Hcs; simpl.
  destruct (String.eqb (address st) ""); simpl; [|done].
  by rewrite (Hcalm Address).
Qed.

(** X11: when the contact page is visited and nothing raises there,
    the record is filled from the two pages together: the emails and
    the phone numbers are the unions of those of the two pages, each
    social link is the one of the main page, or the one of the contact
    page where the main page has none, and the address is the one of
    the main page, or the one of the contact page where the main page
    has none. *)
Theorem clean_contact_page_merges d url st cp :
  main_pass urljoin (fetch d url) = Some (st, cp) →
  fallback_due cp (current_url (fetch d url)) st →
  (contact_pass urljoin (fetch d cp) cp st).2 = Some tt →
  let page := page_source (fetch d cp) in
  ∃ cs st',
    extract_social_links urljoin page cp = Some cs
    ∧ scrape_site urljoin (Some d) url = fill_result (current_url (fetch d url)) cp st'
    ∧ emails st' = emails st ∪ extract_emails page (get_text " " page)
    ∧ phones st' = phones st ∪ extract_phone_numbers page (get_text " " page)
    ∧ (∀ k, value_of (social st') k
            = if String.eqb (value_of (social st) k) "" then value_of cs k
              else value_of (social st) k)
    ∧ address st' = if String.eqb (address st) "" then page_address (fetch d cp)
                    else address st.
Proof.
  intros Hmain Hdue%(wants_contact_page_spec urljoin) Hclean page. subst page.
  unfold scrape_site. rewrite (scrape_site_run_main _ _ _ _ _ Hmain), Hdue.
  cbn [result]. revert Hclean. generalize (fetch d cp). intros v.
  unfold contact_pass, contact_try, driver_get, call, mbind, M_bind, bind, ret, raise,
    get_found, put_found,
    page_address.
  destruct (raises v Get); simpl; [done|].
  destruct (raises v Wait); simpl; [done|].
  destruct (raises v Source); simpl; [done|].
  destruct (raises v Emails); simpl; [done|].
  destruct (raises v Phones); simpl; [done|].
  destruct (raises v Social); simpl; [done|].
  destruct (extract_social_links urljoin (page_source v) cp) as [cs|]; simpl; [|done].
  destruct (String.eqb (address st) "") eqn:Ha; simpl.
  - destruct (raises v Address); simpl; [done|]. intros _.
    eexists cs, _. split; [done|]. split; [done|]. simpl.
    split_and!; try done. intros k. apply merge_social_spec.
  - intros _. eexists cs, _. split; [done|]. split; [done|]. simpl. rewrite ?Ha.
    split_and!; try done. intros k. apply merge_social_spec.
Qed.

(** X12: what a contact page that raises leaves behind.  An
    exception while the page is loaded, awaited, parsed or searched
    for emails leaves the local variables as the main page set them;
    one raised by the search for phone numbers comes after the emails
    of the contact page were added; one raised by the search for social
    links comes after its phone numbers were added too, and leaves the
    social links and the address of the main page. *)
Theorem contact_page_failure_points v cp st :
  let page := page_source v in
  let with_emails :=
    {| emails := emails st ∪ extract_emails page (get_text " " page);
       phones := phones st; social := social st; address := address st |} in
  let with_phones :=
    {| emails := emails with_emails;
       phones := phones st ∪ extract_phone_numbers page (get_text " " page);
       social := social st; address := address st |} in
  (existsb (raises v) [Get; Wait; Source; Emails] = true →
   contact_pass urljoin v cp st = (st, None))
  ∧ (existsb (raises v) [Get; Wait; Source; Emails] = false →
     raises v Phones = true →
     contact_pass urljoin v cp st = (with_emails, None))
  ∧ (existsb (raises v) [Get; Wait; Source; Emails; Phones] = false →
     raises v Social = true ∨ extract_social_links urljoin page cp = None →
     contact_pass urljoin v cp st = (with_phones, None)).
Proof.
  intros page with_emails with_phones. subst page with_emails with_phones.
  unfold contact_pass, contact_try, driver_get, call, mbind, M_bind, bind, ret, raise,
    get_found, put_found.
  cbn [existsb].
  destruct (raises v Get); cbn [orb fst snd]; [by split_and!|].
  destruct (raises v Wait); cbn [orb fst snd]; [by split_and!|].
  destruct (raises v Source); cbn [orb fst snd]; [by split_and!|].
  destruct (raises v Emails); cbn [orb fst snd]; [by split_and!|].
  destruct (raises v Phones); cbn [orb fst snd emails phones social address];
    [by split_and!|].
  split_and!; try done. intros _ Hsoc.
  destruct (raises v Social); cbn [fst snd emails phones social address]; [done|].
  destruct Hsoc as [?|Hnone]; [done|]. by rewrite Hnone.
Qed.

End MoreCrawlFacts.

(** ** More on the paginated search *)

Lemma harvest_loop_stops s N mp fuel h h' :
  Z.to_nat (mp + 1 - page h) ≤ fuel →
  (Z.of_nat (length (urls h)) < N)%Z →
  (1 ≤ page h ≤ mp)%Z →
  pages_read h = seqZ 1 (page h - 1) →
  (∀ p, (1 ≤ p < page h)%Z → turns_over s p) →
  harvest_loop fuel s N mp h = Some h' →
  (∀ p, (1 ≤ p < page h')%Z → turns_over s p) ∧ stopped s N mp h'.
Proof.
  revert h h'. induction fuel as [|fuel IH]; intros h h' Hfuel HN Hpage Hread Hbefore.
  { lia. }
  rewrite harvest_loop_unfold.
  rewrite (bool_decide_eq_true_2 _ HN), (bool_decide_eq_true_2 _ (proj2 Hpage)).
  cbn [andb]. cbv zeta.
  destruct (lp_ready (ss_pages s (page h))) eqn:Hready; cbn [negb].
  2:{ intros [= <-]. split; [done|]. by left. }
  set (h1 := foldl (add_unique N) h _).
  assert (page h1 = page h) as Hp1 by apply foldl_add_unique_page.
  assert (pages_read h1 ++ [page h1] = seqZ 1 (page h)) as Hr1.
  { subst h1. rewrite foldl_add_unique_pages_read, foldl_add_unique_page, Hread.
    transitivity (seqZ 1 ((page h - 1) + 1)); [|f_equal; lia].
    rewrite seqZ_app by lia. f_equal.
    replace (1 + (page h - 1))%Z with (page h) by lia. done. }
  cbn [urls page pages_read seen].
  assert (∀ why : Prop, why →
            (∀ p, (1 ≤ p < page h1)%Z → turns_over s p)
            ∧ ((lp_ready (ss_pages s (page h1)) = false
                ∧ pages_read h1 ++ [page h1] = seqZ 1 (page h1 - 1))
               ∨ (lp_ready (ss_pages s (page h1)) = true
                  ∧ pages_read h1 ++ [page h1] = seqZ 1 (page h1)
                  ∧ why))) as Hhere.
  { intros why Hwhy. split.
    - intros p Hp. apply Hbefore. lia.
    - right. split_and!; [by rewrite Hp1|by rewrite Hr1, Hp1|done]. }
  case_bool_decide as Hfull.
  { intros [= <-]. apply Hhere. by left. }
  case_bool_decide as Hlast.
  2:{ intros [= <-]. apply Hhere. right; left. cbn [page]. lia. }
  destruct (next_button_found (ss_pages s (page h))) eqn:Hnext.
  2:{ intros [= <-]. apply Hhere. right; right. cbn [page]. by rewrite Hp1. }
  apply IH; cbn [urls page pages_read].
  - lia.
  - lia.
  - lia.
  - rewrite Hr1, Hp1. f_equal. lia.
  - rewrite Hp1. intros p Hp. destruct (decide (p = page h)) as [->|]; [done|].
    apply Hbefore. lia.
Qed.

Lemma max_pages_for_pos N : (1 ≤ N)%Z → (1 ≤ max_pages_for N)%Z.
Proof. pose proof (max_pages_for_ceil N). lia. Qed.

Lemma search_run_stops d query N :
  ss_submitted (google d query) = true →
  (1 ≤ N)%Z →
  ∃ h, search_google_run (Some d) query N = Some h
       ∧ (Z.of_nat (length (urls h)) ≤ N)%Z
       ∧ (∀ p, (1 ≤ p < page h)%Z → turns_over (google d query) p)
       ∧ stopped (google d query) N (max_pages_for N) h.
Proof.
  intros Hsub HN.
  destruct (search_google_run_spec (Some d) query N) as (h & Hrun & Hurls & _).
  exists h. split; [done|]. split.
  { rewrite Hurls, length_take. lia. }
  unfold search_google_run in Hrun. rewrite Hsub in Hrun.
  pose proof (max_pages_for_pos N HN).
  apply harvest_loop_stops in Hrun; cbn [harvest_start page urls pages_read length];
    try done; lia.
Qed.

(** X13: a search that was submitted for at least one result stops
    for one of four reasons only: the page it is on did not load in
    time; or the list has [max_results] addresses; or the page is the
    last of the [max_pages] allowed; or no [Next] control was found on
    the page.  In the first case the pages before it were read, in the
    others that page as well, and every page before it loaded and
    showed a [Next] control. *)
Theorem search_stops d query N :
  ss_submitted (google d query) = true →
  (1 ≤ N)%Z →
  ∃ h, search_google_run (Some d) query N = Some h
       ∧ (∀ p, (1 ≤ p < page h)%Z → turns_over (google d query) p)
       ∧ ((lp_ready (ss_pages (google d query) (page h)) = false
           ∧ pages_read h = seqZ 1 (page h - 1))
          ∨ (lp_ready (ss_pages (google d query) (page h)) = true
             ∧ pages_read h = seqZ 1 (page h)
             ∧ (Z.of_nat (length (urls h)) = N
                ∨ page h = max_pages_for N
                ∨ next_button_found (ss_pages (google d query) (page h)) = false))).
Proof.
  intros Hsub HN.
  destruct (search_run_stops d query N Hsub HN) as (h & Hrun & Hlen & Hbefore & Hstop).
  exists h. split; [done|]. split; [done|].
  destruct Hstop as [?|(? & ? & [?|?])]; [by left|right..]; split_and!; auto.
  left. lia.
Qed.

(** X14: as long as the listing goes on, the search does: when every
    page up to [max_pages] loads and shows a [Next] control, the list
    returned has [max_results] addresses, or all the [max_pages] pages
    were read. *)
Theorem search_reads_on d query N :
  ss_submitted (google d query) = true →
  (1 ≤ N)%Z →
  (∀ p, (1 ≤ p ≤ max_pages_for N)%Z → turns_over (google d query) p) →
  ∃ h, search_google_run (Some d) query N = Some h
       ∧ (Z.of_nat (length (urls h)) = N
          ∨ pages_read h = seqZ 1 (max_pages_for N)).
Proof.
  intros Hsub HN Hall.
  destruct (search_run_stops d query N Hsub HN) as (h & Hrun & Hlen & Hbefore & Hstop).
  destruct (search_google_run_spec (Some d) query N) as (h' & Hrun' & _ & Hpage & _).
  rewrite Hrun in Hrun'. injection Hrun' as <-.
  pose proof (max_pages_for_pos N HN).
  exists h. split; [done|].
  destruct Hstop as [[Hnot _]|(_ & Hread & [?|[Hlast|Hnone]])].
  - destruct (Hall (page h)) as [Hready _]; [lia|]. congruence.
  - left. lia.
  - right. by rewrite <- Hlast.
  - destruct (Hall (page h)) as [_ Hnext]; [lia|]. congruence.
Qed.

(** X15: there is nothing to read, and the list returned is empty,
    when there is no browser, when no result is asked for, when the
    query cannot be submitted, or when the first page of the listing
    does not load in time. *)
Theorem search_comes_back_empty drv query N :
  drv = None
  ∨ (N ≤ 0)%Z
  ∨ (∃ d, drv = Some d
          ∧ (ss_submitted (google d query) = false
             ∨ lp_ready (ss_pages (google d query) 1) = false)) →
  search_google_run drv query N = Some harvest_start
  ∧ search_google drv query N = Some [].
Proof.
  intros Hwhy.
  assert (search_google_run drv query N = Some harvest_start) as Hrun.
  { unfold search_google_run. destruct drv as [d|]; [|done].
    destruct (ss_submitted (google d query)) eqn:Hsub; [|done].
    destruct (decide (N ≤ 0)%Z) as [HN|HN].
    { destruct (Z.to_nat _); simpl;
        rewrite bool_decide_eq_false_2; cbn [andb]; try done; simpl; lia. }
    destruct Hwhy as [?|[?|(d' & [= <-] & [?|Hready])]]; try done; try congruence.
    pose proof (max_pages_for_pos N ltac:(lia)).
    destruct (Z.to_nat (max_pages_for N)) as [|fuel] eqn:Hfuel; [lia|].
    rewrite harvest_loop_unfold. cbn [harvest_start page urls length]. cbv zeta.
    rewrite Hready. cbn [negb].
    by destruct (bool_decide _ && bool_decide _). }
  split; [done|]. unfold search_google. by rewrite Hrun.
Qed.

(** ** Popups *)

Section ClosePopupsFacts.

Context {tab web_element : Type}.
Variable find_elements : tab -> string -> option (list web_element).
Variable is_displayed : tab -> web_element -> option bool.
Variable click : tab -> web_element -> tab * bool.
Variable pause : tab -> tab.

Lemma clicks_sound_snoc_looked log sel t :
  clicks_sound find_elements is_displayed log → clicks_sound find_elements is_displayed (log ++ [Looked sel t]).
Proof.
  intros Hlog sel' e t' [Hin|Hin%list_elem_of_singleton]%elem_of_app; [|done].
  destruct (Hlog _ _ _ Hin) as (Hd & t0 & els & Hl & Hf & He).
  split; [done|]. exists t0, els. split_and!; try done. apply elem_of_app. by left.
Qed.

Lemma click_displayed_sound sel els t log t0 els0 :
  clicks_sound find_elements is_displayed log →
  Looked sel t0 ∈ log → find_elements t0 sel = Some els0 → els ⊆ els0 →
  clicks_sound find_elements is_displayed (click_displayed is_displayed click pause sel els t log).2.
Proof.
  revert t log. induction els as [|e els IH]; intros t log Hlog Hlooked Hfound Hsub;
    cbn [click_displayed]; [done|].
  assert (els ⊆ els0) as Hsub' by (intros x Hx; apply Hsub; by right).
  destruct (is_displayed t e) as [[]|] eqn:Hshown; [|by apply IH|done].
  assert (clicks_sound find_elements is_displayed (log ++ [Click sel e t])) as Hlog'.
  { intros sel' e' t' [Hin|Hin%list_elem_of_singleton]%elem_of_app.
    - destruct (Hlog _ _ _ Hin) as (Hd & t1 & els1 & Hl & Hf & He).
      split; [done|]. exists t1, els1. split_and!; try done. apply elem_of_app. by left.
    - injection Hin as -> -> ->. split; [done|]. exists t0, els0.
      split_and!; [apply elem_of_app; by left|done|apply Hsub; by left]. }
  destruct (click t e) as [t' []]; [|done].
  apply IH; try done. apply elem_of_app. by left.
Qed.

Lemma click_displayed_lookups sel els t log :
  lookups (click_displayed is_displayed click pause sel els t log).2 = lookups log.
Proof.
  revert t log. induction els as [|e els IH]; intros t log; cbn [click_displayed]; [done|].
  assert (lookups (log ++ [Click sel e t]) = lookups log) as Hsame.
  { unfold lookups. rewrite flat_map_app. simpl. by rewrite app_nil_r. }
  destruct (is_displayed t e) as [[]|]; [|by apply IH|done].
  destruct (click t e) as [t' []]; [|done]. by rewrite IH.
Qed.

Lemma selector_step_spec st sel :
  clicks_sound find_elements is_displayed st.2 →
  clicks_sound find_elements is_displayed (selector_step find_elements is_displayed click pause st sel).2
  ∧ lookups (selector_step find_elements is_displayed click pause st sel).2 = lookups st.2 ++ [sel].
Proof.
  intros Hlog. unfold selector_step. cbv zeta.
  assert (lookups (st.2 ++ [Looked sel st.1]) = lookups st.2 ++ [sel]) as Hlook.
  { unfold lookups. by rewrite flat_map_app. }
  pose proof (clicks_sound_snoc_looked _ sel st.1 Hlog) as Hlog'.
  destruct (find_elements st.1 sel) as [els|] eqn:Hfound; [|done].
  split.
  - eapply click_displayed_sound; [done| |exact Hfound|done].
    apply elem_of_app. right. by apply list_elem_of_singleton.
  - by rewrite click_displayed_lookups.
Qed.

Lemma selectors_spec sels st :
  clicks_sound find_elements is_displayed st.2 →
  clicks_sound find_elements is_displayed (foldl (selector_step find_elements is_displayed click pause) st sels).2
  ∧ lookups (foldl (selector_step find_elements is_displayed click pause) st sels).2 = lookups st.2 ++ sels.
Proof.
  revert st. induction sels as [|sel sels IH]; intros st Hlog; cbn [foldl].
  { by rewrite app_nil_r. }
  destruct (selector_step_spec st sel Hlog) as [Hlog' Hlook].
  destruct (IH _ Hlog') as [? ->]. split; [done|].
  by rewrite Hlook, <- app_assoc.
Qed.

(** X16: whatever raises on the way, [close_popups] looks up each of
    its thirteen selectors once, in the order of the list; and it
    clicks only on elements that one of these lookups found and that
    said they were displayed at the moment of the click. *)
Theorem close_popups_clicks t :
  lookups (close_popups find_elements is_displayed click pause t).2 = close_selectors
  ∧ ∀ sel e t',
      Click sel e t' ∈ (close_popups find_elements is_displayed click pause t).2 →
      is_displayed t' e = Some true
      ∧ ∃ t0 els,
          Looked sel t0 ∈ (close_popups find_elements is_displayed click pause t).2
          ∧ find_elements t0 sel = Some els ∧ e ∈ els.
Proof.
  unfold close_popups.
  destruct (selectors_spec close_selectors (t, [])) as [Hsound Hlook].
  { intros sel e t' Hin. by apply elem_of_nil in Hin. }
  split; [exact Hlook|exact Hsound].
Qed.

End ClosePopupsFacts.

(** ** The command line *)

Lemma lstrip_headed s : headed (Py.lstrip s).
Proof.
  induction s as [|c s IH]; [done|]. cbn [Py.lstrip].
  by destruct (Py.isspace c) eqn:Hc.
Qed.

Lemma rstrip_headed s : headed s → headed (Py.rstrip s).
Proof.
  destruct s as [|c s]; [done|]. cbn [Py.rstrip headed]. intros Hc.
  destruct (Py.rstrip s); [by rewrite Hc|done].
Qed.

Lemma lstrip_of_headed s : headed s → Py.lstrip s = s.
Proof. destruct s as [|c s]; [done|]. cbn [Py.lstrip headed]. by intros ->. Qed.

Lemma rstrip_idemp s : Py.rstrip (Py.rstrip s) = Py.rstrip s.
Proof.
  induction s as [|c s IH]; [done|]. cbn [Py.rstrip].
  destruct (Py.rstrip s) as [|d r] eqn:Hr.
  - destruct (Py.isspace c) eqn:Hc; [done|]. cbn [Py.rstrip]. by rewrite Hc.
  - change (Py.rstrip (String c (String d r)))
      with (match Py.rstrip (String d r) with
            | EmptyString => if Py.isspace c then EmptyString else String c EmptyString
            | r' => String c r'
            end).
    by rewrite IH.
Qed.

Lemma strip_idemp s : Py.strip (Py.strip s) = Py.strip s.
Proof.
  unfold Py.strip.
  rewrite (lstrip_of_headed (Py.rstrip _)) by apply rstrip_headed, lstrip_headed.
  apply rstrip_idemp.
Qed.

Lemma elem_of_file_urls lines u :
  u ∈ file_urls lines ↔ u ≠ "" ∧ ∃ line, line ∈ lines ∧ u = Py.strip line.
Proof.
  unfold file_urls. rewrite list_elem_of_In, in_flat_map. split.
  - intros (line & Hline%list_elem_of_In & Hu).
    destruct (String.eqb_spec (Py.strip line) ""); cbn [negb] in Hu; [done|].
    destruct Hu as [<-|[]]. eauto.
  - intros (Hu & line & Hline%list_elem_of_In & ->). exists line. split; [done|].
    destruct (String.eqb_spec (Py.strip line) ""); [done|]. by left.
Qed.

Section MainFacts.

Variable urljoin : string -> string -> option string.
Variable clock_limit : QArith_base.Q.
Variable read_lines : string -> option (list string).
Variable can_write : string -> bool.

Lemma search_google_returns drv query N : is_Some (search_google drv query N).
Proof.
  destruct (search_google_run_spec drv query N) as (h & Hrun & _).
  unfold search_google. by rewrite Hrun.
Qed.

Lemma chosen_urls_returns drv a : is_Some (chosen_urls drv a).
Proof.
  unfold chosen_urls. repeat case_match; try done; apply search_google_returns.
Qed.

Lemma given_spec o s : given o = Some s ↔ o = Some s ∧ s ≠ "".
Proof.
  unfold given. destruct o as [t|]; [|split; [done|by intros [? _]]].
  destruct (String.eqb_spec t "") as [->|Hne]; split.
  - done.
  - by intros [[= <-] ?].
  - by intros [= <-].
  - by intros [[= ->] _].
Qed.

(** Which list [main] starts from: the one of the search for the
    query, else the one of the search for the country, else the one
    of [--urls]. *)
Lemma chosen_urls_spec drv a picked :
  chosen_urls drv a = Some picked →
  (∀ query, cli_query a = Some query → query ≠ "" →
            search_google drv query (cli_max_results a) = Some picked)
  ∧ (given (cli_query a) = None →
     ∀ country, cli_country a = Some country → country ≠ "" →
                search_google drv (country_query country) (cli_max_results a)
                = Some picked)
  ∧ (given (cli_query a) = None → given (cli_country a) = None →
     picked = default [] (cli_urls a)).
Proof.
  unfold chosen_urls. intros Hpicked. split_and!.
  - intros query Hq Hne.
    assert (given (cli_query a) = Some query) as Hg by by apply given_spec.
    by rewrite Hg in Hpicked.
  - intros Hq country Hc Hne.
    assert (given (cli_country a) = Some country) as Hg by by apply given_spec.
    by rewrite Hq, Hg in Hpicked.
  - intros Hq Hc. rewrite Hq, Hc in Hpicked.
    destruct (cli_urls a) as [[|u us]|]; by injection Hpicked as <-.
Qed.

Lemma main_unfold drv a picked :
  chosen_urls drv a = Some picked →
  main urljoin clock_limit read_lines can_write drv a =
    match picked ++ urls_of_file read_lines a with
    | [] => Some {| scraped := []; files := []; finished := true |}
    | urls =>
        match scrape_multiple_sites urljoin clock_limit drv urls (cli_delay a) with
        | None => Some {| scraped := urls; files := []; finished := false |}
        | Some results =>
            let csv :=
              if wants_csv (cli_format a)
              then save_to_csv can_write results (cli_output a +:+ ".csv")
              else ([], true) in
            if csv.2 then
              let excel :=
                if wants_excel (cli_format a)
                then save_to_excel can_write results (cli_output a +:+ ".xlsx")
                else ([], true) in
              Some {| scraped := urls; files := csv.1 ++ excel.1; finished := excel.2 |}
            else Some {| scraped := urls; files := csv.1; finished := false |}
        end
    end.
Proof. unfold main. intros ->. cbn [mbind option_bind]. by destruct (picked ++ _). Qed.

Lemma main_returns drv a picked :
  chosen_urls drv a = Some picked →
  ∃ s, main urljoin clock_limit read_lines can_write drv a = Some s
       ∧ scraped s = picked ++ urls_of_file read_lines a.
Proof.
  intros Hpicked. rewrite (main_unfold _ _ _ Hpicked).
  destruct (picked ++ urls_of_file read_lines a) as [|u us] eqn:Hurls; [by eexists|].
  cbv zeta.
  destruct (scrape_multiple_sites urljoin clock_limit drv (u :: us) (cli_delay a));
    [|eexists; split; reflexivity].
  destruct (if wants_csv _ then _ else _) as [f1 []];
    eexists; split; reflexivity.
Qed.

(** X17: [main] scrapes the addresses the search returns for the
    query, or for the query made from the country, or the addresses
    of [--urls], followed by those of the URL file.  An empty
    [--query] or [--country] counts as not given.  The lines of the
    file are stripped of the white space around them and the blank
    ones are left out, so no address taken from the file is empty or
    has white space around it; a file that cannot be read adds
    nothing. *)
Theorem main_scrapes drv a :
  ∃ s picked,
    main urljoin clock_limit read_lines can_write drv a = Some s
    ∧ scraped s = picked ++ urls_of_file read_lines a
    ∧ (∀ query, cli_query a = Some query → query ≠ "" →
                search_google drv query (cli_max_results a) = Some picked)
    ∧ (given (cli_query a) = None →
       ∀ country, cli_country a = Some country → country ≠ "" →
                  search_google drv
                    ("site:myshopify.com " +:+ dquote +:+ country +:+ dquote
                     +:+ " intitle:" +:+ dquote +:+ "contact" +:+ dquote)
                    (cli_max_results a)
                  = Some picked)
    ∧ (given (cli_query a) = None → given (cli_country a) = None →
       picked = default [] (cli_urls a))
    ∧ (∀ u, u ∈ urls_of_file read_lines a →
            u ≠ "" ∧ Py.strip u = u
            ∧ ∃ name lines line,
                given (cli_url_file a) = Some name ∧ read_lines name = Some lines
                ∧ line ∈ lines ∧ u = Py.strip line)
    ∧ (∀ name lines line,
         given (cli_url_file a) = Some name → read_lines name = Some lines →
         line ∈ lines → Py.strip line ≠ "" → Py.strip line ∈ urls_of_file read_lines a)
    ∧ (∀ name, given (cli_url_file a) = Some name → read_lines name = None →
               urls_of_file read_lines a = []).
Proof.
  destruct (chosen_urls_returns drv a) as [picked Hpicked].
  destruct (main_returns drv a picked Hpicked) as (s & Hmain & Hscraped).
  destruct (chosen_urls_spec drv a picked Hpicked) as (Hquery & Hcountry & Hurls).
  exists s, picked. split_and!; try done.
  - intros u Hu. unfold urls_of_file in Hu.
    destruct (given (cli_url_file a)) as [name|]; [|by apply elem_of_nil in Hu].
    destruct (read_lines name) as [lines|] eqn:Hread; [|by apply elem_of_nil in Hu].
    apply elem_of_file_urls in Hu as (Hne & line & Hline & ->).
    split_and!; [done|apply strip_idemp|]. by exists name, lines, line.
  - intros name lines line Hname Hread Hline Hne.
    unfold urls_of_file. rewrite Hname, Hread.
    apply elem_of_file_urls. eauto.
  - intros name Hname Hread. unfold urls_of_file. by rewrite Hname, Hread.
Qed.

(** X18: the files [main] writes.  Without addresses it writes
    none.  With two addresses or more and a [--delay] that
    [time.sleep] refuses it is left before any file is written.
    Otherwise the rows of every file are the records of the addresses
    scraped, one each and in that order, so no file is written without
    rows; the format chooses between [<output>.csv], [<output>.xlsx]
    and the first followed by the second; and a CSV file that cannot
    be written ends the run before the Excel file is tried. *)
Theorem main_writes drv a :
  ∃ s,
    main urljoin clock_limit read_lines can_write drv a = Some s
    ∧ (scraped s = [] → files s = [] ∧ finished s = true)
    ∧ (2 ≤ length (scraped s) → sleep_accepts clock_limit (cli_delay a) = false →
       files s = [] ∧ finished s = false)
    ∧ (∀ w, w ∈ files s →
            w_rows w = scrape_site urljoin drv <$> scraped s
            ∧ w_rows w ≠ []
            ∧ length (w_rows w) = length (scraped s)
            ∧ ((w_kind w = CsvFile ∧ w_name w = cli_output a +:+ ".csv"
                ∧ wants_csv (cli_format a) = true)
               ∨ (w_kind w = ExcelFile ∧ w_name w = cli_output a +:+ ".xlsx"
                  ∧ wants_excel (cli_format a) = true)))
    ∧ (scraped s ≠ [] → wants_csv (cli_format a) = true →
       can_write (cli_output a +:+ ".csv") = false →
       files s = [] ∧ finished s = false)
    ∧ (scraped s ≠ [] →
       sleep_accepts clock_limit (cli_delay a) = true ∨ length (scraped s) ≤ 1 →
       can_write (cli_output a +:+ ".csv") = true →
       can_write (cli_output a +:+ ".xlsx") = true →
       finished s = true
       ∧ w_name <$> files s =
           match cli_format a with
           | Csv => [cli_output a +:+ ".csv"]
           | Excel => [cli_output a +:+ ".xlsx"]
           | Both => [cli_output a +:+ ".csv"; cli_output a +:+ ".xlsx"]
           end).
Proof.
  destruct (chosen_urls_returns drv a) as [picked Hpicked].
  rewrite (main_unfold _ _ _ Hpicked).
  destruct (picked ++ urls_of_file read_lines a) as [|u us] eqn:Hurls.
  { eexists. split; [done|]. cbn [scraped files finished].
    split_and!; try done.
    - simpl. lia.
    - intros w Hw. by apply elem_of_nil in Hw. }
  cbv zeta. unfold scrape_multiple_sites.
  destruct (sleep_accepts clock_limit (cli_delay a)) eqn:Hsleep.
  2:{ destruct us as [|u' us].
      - rewrite scrape_loop_accepted by (right; simpl; lia). cbn [app fmap list_fmap].
        unfold save_to_csv, save_to_excel, save_to.
        destruct (cli_format a), (can_write (cli_output a +:+ ".csv")),
          (can_write (cli_output a +:+ ".xlsx"));
          cbn [wants_csv wants_excel fst snd app];
          (eexists; split; [done|]); cbn [scraped files finished];
          (split_and!; try done; try (simpl; lia);
           [ intros w Hw;
             repeat (apply elem_of_cons in Hw as [->|Hw]);
             try (by apply elem_of_nil in Hw);
             cbn [w_rows w_kind w_name];
             split_and!; try done; (by left) || (by right) ]).
      - rewrite scrape_loop_refused by (done || (simpl; lia)).
        eexists. split; [done|]. cbn [scraped files finished].
        split_and!; try done.
        + intros w Hw. by apply elem_of_nil in Hw.
        + intros _ [?|Hlen]; [done|]. simpl in Hlen. lia. }
  rewrite scrape_loop_accepted by by left. cbn [app]. rewrite fmap_cons.
  unfold save_to_csv, save_to_excel, save_to.
  destruct (cli_format a), (can_write (cli_output a +:+ ".csv")),
    (can_write (cli_output a +:+ ".xlsx"));
    cbn [wants_csv wants_excel fst snd app];
    (eexists; split; [done|]); cbn [scraped files finished];
    (split_and!; try done;
     [ intros w Hw;
       repeat (apply elem_of_cons in Hw as [->|Hw]); try (by apply elem_of_nil in Hw);
       cbn [w_rows w_kind w_name]; rewrite ?length_cons, ?length_fmap;
       split_and!; try done; (by left) || (by right) ]).
Qed.

End MainFacts.

(** ** The properties at work *)

Lemma emails_lower_case_witness :
  "hello@shop.io" ∈ extract_emails shop_page "Write to Hello@Shop.io today"
  ∧ Py.lower "hello@shop.io" = "hello@shop.io".
Proof.
  assert ("hello@shop.io" ∈ extract_emails shop_page "Write to Hello@Shop.io today") as H.
  { apply (bool_decide_unpack _). vm_compute. exact I. }
  split; [exact H|]. exact (emails_lower_case _ _ _ H).
Defined.

Lemma emails_hold_at_sign_witness :
  "sales@shop.example" ∈ extract_emails Shop.main_page ""
  ∧ ((email_from_mailto Shop.main_page "sales@shop.example"
      ∧ 1 ≤ Py.count "@" "sales@shop.example")
     ∨ ((email_from_text "" "sales@shop.example"
         ∨ email_from_meta Shop.main_page "sales@shop.example")
        ∧ Py.count "@" "sales@shop.example" = 1)).
Proof.
  assert ("sales@shop.example" ∈ extract_emails Shop.main_page "") as H.
  { apply (bool_decide_unpack _). vm_compute. exact I. }
  split; [exact H|]. exact (emails_hold_at_sign _ _ _ H).
Defined.

Lemma mailto_link_extracted_witness :
  "sales@shop.example" ∈ extract_emails subject_mailto_page "Write".
Proof.
  apply (mailto_link_extracted subject_mailto_page "Write" subject_mailto_link
           " Sales@Shop.example " "?subject=Hello").
  - apply list_elem_of_here.
  - reflexivity.
  - right. by eexists.
  - reflexivity.
  - reflexivity.
  - reflexivity.
  - reflexivity.
Defined.

Lemma tel_link_extracted_witness :
  "+1 (555) 201-1234 " ∈ extract_phone_numbers dial_page "Call"
  ∧ all_chars phone_char "+1 (555) 201-1234 " = true.
Proof.
  apply (tel_link_extracted dial_page "Call" dial_link "+1 (555) 201-1234 ext").
  - apply list_elem_of_here.
  - reflexivity.
  - reflexivity.
  - discriminate.
Defined.

Lemma structured_address_first_witness :
  extract_physical_address two_postal_page "" = "1 Main Street, Springfield".
Proof.
  apply (structured_address_first two_postal_page "" [bare_postal] full_postal []).
  - reflexivity.
  - constructor; [reflexivity|constructor].
  - discriminate.
Defined.

Lemma keyword_address_bounds_witness :
  extract_physical_address Shop.main_page "" = ""
  ∨ (keyword_pick (find_all (named_in ["address"; "div"; "p"]) Shop.main_page)
       (extract_physical_address Shop.main_page "")
     ∧ 21 ≤ String.length (extract_physical_address Shop.main_page "") ≤ 200).
Proof.
  apply (keyword_address_bounds Shop.main_page ""). reflexivity.
Defined.

Lemma two_facebook_social :
  is_Some (extract_social_links simple_urljoin two_facebook_page "https://shop.example").
Proof. apply (bool_decide_unpack _). vm_compute. exact I. Qed.

Lemma social_links_shape_witness :
  ∃ sl, extract_social_links simple_urljoin two_facebook_page "https://shop.example"
        = Some sl
        ∧ dom sl = list_to_set ["facebook"; "instagram"; "twitter_x"; "tiktok";
                                "youtube"; "linkedin"].
Proof.
  destruct two_facebook_social as [sl Hsl].
  exists sl. split; [exact Hsl|].
  exact (proj1 (social_links_shape simple_urljoin _ _ _ Hsl)).
Defined.

Lemma stall_main_pass :
  ∃ st, main_pass simple_urljoin (fetch Stall.browser Stall.home)
        = Some (st, "https://stall.example/reach-us")
        ∧ size (emails st) = 0
        ∧ address st = ""
        ∧ value_of (social st) "instagram" = "https://instagram.com/stall"
        ∧ value_of (social st) "tiktok" = "".
Proof.
  eexists. split; [vm_compute; reflexivity|]. split_and!; vm_compute; reflexivity.
Qed.

Lemma stall_contact_social :
  is_Some (extract_social_links simple_urljoin Stall.contact_page
             "https://stall.example/reach-us").
Proof. apply (bool_decide_unpack _). vm_compute. exact I. Qed.

Lemma clean_contact_page_merges_witness :
  ∃ st cs st',
    main_pass simple_urljoin (fetch Stall.browser Stall.home)
    = Some (st, "https://stall.example/reach-us")
    ∧ extract_social_links simple_urljoin Stall.contact_page
        "https://stall.example/reach-us" = Some cs
    ∧ scrape_site simple_urljoin (Some Stall.browser) Stall.home
      = fill_result Stall.home "https://stall.example/reach-us" st'
    ∧ emails st' = emails st ∪ extract_emails Stall.contact_page
                                 (Dom.get_text " " Stall.contact_page).
Proof.
  destruct stall_main_pass as (st & Hmain & Hnone & _).
  destruct (clean_contact_page_merges simple_urljoin Stall.browser Stall.home st
              "https://stall.example/reach-us" Hmain)
    as (cs & st' & Hcs & Hrec & Hemails & _).
  - split_and!; [discriminate|discriminate|by left].
  - apply contact_pass_clean; [done|]. exact stall_contact_social.
  - exists st, cs, st'. split_and!; [exact Hmain|exact Hcs|exact Hrec|exact Hemails].
Defined.

Lemma search_stops_witness :
  ∃ h, search_google_run (Some two_page_driver) "site:myshopify.com" 15 = Some h
       ∧ (∀ p, (1 ≤ p < page h)%Z → turns_over two_page_session p)
       ∧ ((lp_ready (ss_pages two_page_session (page h)) = false
           ∧ pages_read h = seqZ 1 (page h - 1))
          ∨ (lp_ready (ss_pages two_page_session (page h)) = true
             ∧ pages_read h = seqZ 1 (page h)
             ∧ (Z.of_nat (length (urls h)) = 15%Z
                ∨ page h = max_pages_for 15
                ∨ next_button_found (ss_pages two_page_session (page h)) = false))).
Proof.
  apply (search_stops two_page_driver "site:myshopify.com" 15); [reflexivity|lia].
Defined.

Lemma search_reads_on_witness :
  ∃ h, search_google_run (Some two_page_driver) "site:myshopify.com" 25 = Some h
       ∧ (Z.of_nat (length (urls h)) = 25%Z
          ∨ pages_read h = seqZ 1 (max_pages_for 25)).
Proof.
  apply (search_reads_on two_page_driver "site:myshopify.com" 25).
  - reflexivity.
  - lia.
  - intros p _. split; reflexivity.
Defined.

Lemma search_comes_back_empty_witness :
  search_google_run (Some Shop.browser) "site:myshopify.com" 10 = Some harvest_start
  ∧ search_google (Some Shop.browser) "site:myshopify.com" 10 = Some [].
Proof.
  apply (search_comes_back_empty (Some Shop.browser) "site:myshopify.com" 10).
  right; right. exists Shop.browser. split; [reflexivity|]. left. reflexivity.
Defined.

(** A tab with one close button that is displayed, one that is not,
    and a cookie button whose click raises: the first and the last
    are clicked, and every selector is looked up all the same. *)
Example popups_closed :
  let find_elements (t : nat) (selector : string) :=
    if String.eqb selector "button[class*='close']" then Some [1; 2]
    else if String.eqb selector "button.cookie-accept" then Some [3; 4]
    else if String.eqb selector ".modal-close" then None
    else Some [] in
  let is_displayed (t : nat) (e : nat) := Some (negb (e =? 2)) in
  let click (t : nat) (e : nat) := (t + e, negb (e =? 3)) in
  let log := (close_popups find_elements is_displayed click (fun t => t) 0).2 in
  flat_map (fun a => match a with Click s e _ => [(s, e)] | Looked _ _ => [] end) log
  = [ ("button[class*='close']", 1); ("button.cookie-accept", 3) ]
  ∧ lookups log = close_selectors.
Proof. vm_compute. split; reflexivity. Qed.

(** A run of [main] on a country and a file of addresses, and the
    same run with a negative [--delay]. *)
Example main_on_a_country :
  let a (delay : pyfloat) :=
    {| cli_query := None; cli_country := Some "Canada"; cli_urls := None;
       cli_max_results := 1; cli_output := "out"; cli_format := Both;
       cli_delay := delay; cli_url_file := Some "more.txt" |} in
  let read_lines (name : string) :=
    if String.eqb name "more.txt"
    then Some [ String "032" ("https://shop.example" +:+ String "010" "");
                String "010" "" ]
    else None in
  let run (delay : pyfloat) :=
    main simple_urljoin unix_clock read_lines (fun _ => true) (Some Stall.browser)
      (a delay) in
  (scraped <$> run (Finite (QArith_base.Qmake 2 1)))
  = Some ["https://stall.example"; "https://shop.example"]
  ∧ (fmap w_name ∘ files <$> run (Finite (QArith_base.Qmake 2 1)))
    = Some ["out.csv"; "out.xlsx"]
  ∧ (fmap w_name ∘ files <$> run (Finite (QArith_base.Qmake (-1) 1))) = Some []
  ∧ (finished <$> run (Finite (QArith_base.Qmake (-1) 1))) = Some false.
Proof. vm_compute. split_and!; reflexivity. Qed.

(** The query made from a country, by the code points of its
    characters: the country stands between two double quotes (34),
    and so does the word that follows [intitle:]. *)
Example country_query_codes :
  nat_of_ascii <$> String.list_ascii_of_string (country_query "US")
  = [ 115; 105; 116; 101; 58; 109; 121; 115; 104; 111; 112; 105; 102; 121; 46; 99;
      111; 109; 32; 34; 85; 83; 34; 32; 105; 110; 116; 105; 116; 108; 101; 58; 34;
      99; 111; 110; 116; 97; 99; 116; 34 ].
Proof. reflexivity. Qed.

Lemma joined_columns_sorted_witness :
  ∃ es ps,
    Result.emails (scrape_site simple_urljoin (Some Stall.browser) Stall.home)
    = Py.join ", " es
    ∧ Result.phone_numbers (scrape_site simple_urljoin (Some Stall.browser) Stall.home)
      = Py.join ", " ps
    ∧ StronglySorted String.le es ∧ NoDup es
    ∧ StronglySorted String.le ps ∧ NoDup ps.
Proof.
  destruct stall_main_pass as (st & Hmain & _).
  destruct (joined_columns_sorted simple_urljoin Stall.browser Stall.home st _ Hmain)
    as (es & ps & He & Hp & Hse & Hne & Hsp & Hnp & _).
  exists es, ps. split_and!; [exact He|exact Hp|exact Hse|exact Hne|exact Hsp|exact Hnp].
Defined.

(** The stall: the main page gives no email, so the browser is sent
    on to the contact page found. *)
Lemma contact_visit_iff_witness :
  gets (scrape_site_run simple_urljoin (Some Stall.browser) Stall.home)
  = [Stall.home; "https://stall.example/reach-us"]
  ∧ ∃ d st cp,
      Some Stall.browser = Some d
      ∧ main_pass simple_urljoin (fetch d Stall.home) = Some (st, cp)
      ∧ fallback_due cp (current_url (fetch d Stall.home)) st.
Proof.
  assert (gets (scrape_site_run simple_urljoin (Some Stall.browser) Stall.home)
          = [Stall.home; "https://stall.example/reach-us"]) as Hgets
    by (vm_compute; reflexivity).
  split; [exact Hgets|].
  apply (proj1 (contact_visit_iff simple_urljoin (Some Stall.browser) Stall.home)).
  eexists. exact Hgets.
Defined.

(** A page with an email and a phone number: the contact page it
    links to is recorded and not visited. *)
Example no_second_visit :
  let page :=
    Dom.soup [ Dom.Elem "a" {[ "href" := "mailto:hi@full.example" ]} [];
               Dom.Elem "a" {[ "href" := "tel:+1-555-201-7777" ]} [];
               Dom.Elem "a" {[ "href" := "/contact" ]} [Dom.Text "Contact"] ] in
  let d := {| google := google Stall.browser;
              fetch := fun u => {| raises := fun _ => false; page_source := page;
                                   current_url := u |} |} in
  gets (scrape_site_run simple_urljoin (Some d) "https://full.example")
  = ["https://full.example"]
  ∧ Result.contact_page_url (scrape_site simple_urljoin (Some d) "https://full.example")
    = "https://full.example/contact".
Proof. vm_compute. split; reflexivity. Qed.
